(** * The UCT engine facade of Pachi (uct/uct.c)

    A shallow embedding of the engine entry points of [uct/uct.c]
    (per-game state handling, move generation, the root-parallel driver,
    the chat command and the configuration parser) together with the
    properties the specification states about them.

    Layout:
    - [Libc]: the C library functions the file calls on strings;
    - stones, coords and the structures the file reads and writes;
    - the process monad: standard error, [exit], [assert];
    - the collaborators (tree, walker, policies, board) as an interface;
    - the functions of [uct.c], one definition per C function;
    - a small concrete instance of the collaborators, used to run the model;
    - the theorems. *)

From Stdlib Require Import ZArith List String Ascii Bool Lia QArith.
From Stdlib Require Import DecimalString.
Import ListNotations.

Open Scope string_scope.
Open Scope Z_scope.

(** ** The C library on strings *)

Module Libc.

(** The newline character of the C string literals. *)
Definition nl : string := String (ascii_of_nat 10) EmptyString.

Definition code (c : ascii) : Z := Z.of_nat (nat_of_ascii c).

(** [tolower] in the C locale. *)
Definition tolower (c : ascii) : ascii :=
  if (65 <=? code c) && (code c <=? 90)
  then ascii_of_nat (nat_of_ascii c + 32)
  else c.

Fixpoint lower (s : string) : string :=
  match s with
  | EmptyString => EmptyString
  | String c s' => String (tolower c) (lower s')
  end.

(** [strcasecmp]: zero when the strings agree up to letter case, else the
    difference of the first two lowered characters that differ. *)
Fixpoint strcasecmp (a b : string) : Z :=
  match a, b with
  | EmptyString, EmptyString => 0
  | EmptyString, String cb _ => - code (tolower cb)
  | String ca _, EmptyString => code (tolower ca)
  | String ca a', String cb b' =>
      if code (tolower ca) =? code (tolower cb)
      then strcasecmp a' b'
      else code (tolower ca) - code (tolower cb)
  end.

(** [strncasecmp]: as [strcasecmp] on at most [n] characters. *)
Fixpoint strncasecmp (a b : string) (n : nat) : Z :=
  match n with
  | O => 0
  | S n' =>
      match a, b with
      | EmptyString, EmptyString => 0
      | EmptyString, String cb _ => - code (tolower cb)
      | String ca _, EmptyString => code (tolower ca)
      | String ca a', String cb b' =>
          if code (tolower ca) =? code (tolower cb)
          then strncasecmp a' b' n'
          else code (tolower ca) - code (tolower cb)
      end
  end.

Fixpoint mem (c : ascii) (set : string) : bool :=
  match set with
  | EmptyString => false
  | String d set' => Ascii.eqb c d || mem c set'
  end.

(** [s + strspn(s, accept)]: [s] without its longest prefix made of
    characters of [accept]. *)
Fixpoint skip_span (accept : string) (s : string) : string :=
  match s with
  | EmptyString => EmptyString
  | String c s' => if mem c accept then skip_span accept s' else s
  end.

(** Cutting a string at the first occurrence of [c], as the parser does with
    [strcspn] or [strchr] followed by writing a NUL over the separator: the
    text before [c], and the text after it when [c] occurs. *)
Fixpoint cut (c : ascii) (s : string) : string * option string :=
  match s with
  | EmptyString => (EmptyString, None)
  | String d s' =>
      if Ascii.eqb d c then (EmptyString, Some s')
      else let '(pre, post) := cut c s' in (String d pre, post)
  end.

Definition isspace (c : ascii) : bool :=
  (code c =? 32) || ((9 <=? code c) && (code c <=? 13)).

Definition digit (c : ascii) : option Z :=
  if (48 <=? code c) && (code c <=? 57) then Some (code c - 48) else None.

Fixpoint digits (s : string) (acc : Z) : Z :=
  match s with
  | EmptyString => acc
  | String c s' =>
      match digit c with
      | Some d => digits s' (10 * acc + d)
      | None => acc
      end
  end.

Fixpoint skip_spaces (s : string) : string :=
  match s with
  | EmptyString => EmptyString
  | String c s' => if isspace c then skip_spaces s' else s
  end.

(** [(int) z]: the low 32 bits of [z], read as a signed number. *)
Definition int_of (z : Z) : Z :=
  (z + 2147483648) mod 4294967296 - 2147483648.

Definition LONG_MAX : Z := 9223372036854775807.
Definition LONG_MIN : Z := - LONG_MAX - 1.

(** [strtol(s, NULL, 10)]: optional white space, optional sign, decimal
    digits; a number out of the range of [long] (64 bits) is given as
    LONG_MAX or LONG_MIN. *)
Definition strtol (s : string) : Z :=
  let z := match skip_spaces s with
           | String "-" s' => - digits s' 0
           | String "+" s' => digits s' 0
           | s' => digits s' 0
           end in
  Z.max LONG_MIN (Z.min LONG_MAX z).

(** [atoi(s)] is [(int) strtol(s, NULL, 10)]: the value kept is an [int],
    so that 4294967297 reads as 1 and 4294967296 as 0. *)
Definition atoi (s : string) : Z := int_of (strtol s).

(** The [%d] (and [%lu]) conversion of [printf]. *)
Definition fmt_d (z : Z) : string := NilZero.string_of_int (Z.to_int z).

End Libc.


(** ** Stones and coords (stone.h, move.h) *)

(** [enum stone]; the values are those [uct.c] relies on when it masks a
    colour with [dynkomi_mask] (black is bit 0, white is bit 1). *)
Inductive stone : Type := S_NONE | S_BLACK | S_WHITE | S_OFFBOARD.

Definition stone_num (s : stone) : Z :=
  match s with S_NONE => 0 | S_BLACK => 1 | S_WHITE => 2 | S_OFFBOARD => 3 end.

Definition stone_eqb (a b : stone) : bool := stone_num a =? stone_num b.

(** Modelled from the spec: [stone_other] of stone.h, a header that is not
    among the sources
    (other(Black) = White, other(White) = Black; the two remaining values are
    left as they are). *)
Definition stone_other (s : stone) : stone :=
  match s with
  | S_BLACK => S_WHITE
  | S_WHITE => S_BLACK
  | S_NONE => S_NONE
  | S_OFFBOARD => S_OFFBOARD
  end.

(** Modelled from the spec: [coord_t] of move.h, a header that is not among
    the sources
    (a board point, or one of the two sentinels PASS and RESIGN). *)
Inductive coord_t : Type :=
| pass
| resign
| at_point (c : Z).

Definition is_pass (c : coord_t) : bool :=
  match c with pass => true | _ => false end.

Definition is_resign (c : coord_t) : bool :=
  match c with resign => true | _ => false end.

(** [struct move]. *)
Record move : Type := { m_coord : coord_t; m_color : stone }.

(** [struct move_queue]: the queued coords, oldest first. *)
Definition move_queue : Type := list coord_t.

Definition mq_add (mq : move_queue) (c : coord_t) : move_queue :=
  (mq ++ [c])%list.

(** ** Types owned by the collaborators

    What [uct.c] only passes around: C floating-point numbers, the policy,
    playout and prior objects, the stones of a board and the state of the
    pseudo-random generator. *)
Class Foreign : Type := {
  fl : Type;
  uct_policy : Type;
  playout_data : Type;
  uct_prior : Type;
  position : Type;
  prng : Type
}.

(** ** The structures of uct/tree.h, playout.h, board.h and uct/internal.h *)

(** [struct move_stats], the field [u] of a tree node. *)
Record move_stats `{Foreign} : Type := { playouts : Z; value : fl }.

(** [struct tree_node]: the move, its statistics, its children. *)
#[warnings="-register-all"]
Inductive tree_node `{Foreign} : Type :=
  Build_tree_node (n_coord : coord_t) (n_u : move_stats)
                  (n_children : list tree_node).

Definition coord `{Foreign} (n : tree_node) : coord_t :=
  let 'Build_tree_node c _ _ := n in c.

Definition node_u `{Foreign} (n : tree_node) : move_stats :=
  let 'Build_tree_node _ s _ := n in s.

Definition children `{Foreign} (n : tree_node) : list tree_node :=
  let 'Build_tree_node _ _ l := n in l.

(** [n->coord = c]. *)
Definition set_coord `{Foreign} (c : coord_t) (n : tree_node) : tree_node :=
  Build_tree_node c (node_u n) (children n).

(** A [struct tree_node *] into a tree: the way from the root to the node,
    as the positions of the children taken.  The node a pointer leads to is
    read in the tree as it is at that moment, so that what a playout adds to
    a node is seen through a pointer taken before the playout. *)
Definition node_ptr : Type := list nat.

(** [*ptr], from the node the way starts at; [None] when the way leaves the
    tree. *)
Fixpoint node_at `{Foreign} (n : tree_node) (ptr : node_ptr)
  : option tree_node :=
  match ptr with
  | [] => Some n
  | i :: rest =>
      match nth_error (children n) i with
      | Some child => node_at child rest
      | None => None
      end
  end.

Fixpoint at_index {A : Type} (i : nat) (f : A -> A) (l : list A) : list A :=
  match l, i with
  | [], _ => []
  | x :: l', O => f x :: l'
  | x :: l', S i' => x :: at_index i' f l'
  end.

(** [ptr->coord = c], in the tree below [n]. *)
Fixpoint store_coord `{Foreign} (c : coord_t) (n : tree_node) (ptr : node_ptr)
  : tree_node :=
  match ptr with
  | [] => set_coord c n
  | i :: rest =>
      Build_tree_node (coord n) (node_u n)
                      (at_index i (fun child => store_coord c child rest)
                                (children n))
  end.

(** [struct tree]. *)
Record tree `{Foreign} : Type := {
  root : tree_node;
  root_color : stone;
  extra_komi : fl
}.

Definition set_extra_komi `{Foreign} (k : fl) (t : tree) : tree :=
  {| root := root t; root_color := root_color t; extra_komi := k |}.

(** [best->coord = c] for a node [best] of the tree [t]. *)
Definition set_coord_at `{Foreign} (t : tree) (best : node_ptr) (c : coord_t)
  : tree :=
  {| root := store_coord c (root t) best; root_color := root_color t;
     extra_komi := extra_komi t |}.

(** Modelled from the spec: [struct playout_ownermap] of playout.h, a
    header that is not among the sources (per point the counts for black, white and dame, and the
    number of playouts recorded). *)
Record playout_ownermap : Type := {
  om_playouts : Z;
  om_map : list (Z * Z * Z)
}.

(** [struct uct_board], the per-game state kept in [b->es]. *)
Record uct_board `{Foreign} : Type := {
  ub_t : tree;
  ub_ownermap : playout_ownermap
}.

(** [struct board], with the fields [uct.c] reads; [es] is the engine state
    pointer ([None] is NULL) and [stones] stands for the rest of the board. *)
Record board `{Foreign} : Type := {
  es : option uct_board;
  moves : Z;
  last_move : move;
  superko_violation : bool;
  board_size2 : Z;
  stones : position
}.

Definition set_es `{Foreign} (v : option uct_board) (b : board) : board :=
  {| es := v; moves := moves b; last_move := last_move b;
     superko_violation := superko_violation b;
     board_size2 := board_size2 b; stones := stones b |}.

Definition set_superko_violation `{Foreign} (v : bool) (b : board) : board :=
  {| es := es b; moves := moves b; last_move := last_move b;
     superko_violation := v;
     board_size2 := board_size2 b; stones := stones b |}.

(** [struct playout_policy]: the playout object and its [debug_level]. *)
Record playout_policy `{Foreign} : Type := {
  pp_data : playout_data;
  pp_debug_level : Z
}.

Inductive uct_thread_model : Type := TM_NONE | TM_ROOT.

(** [struct uct] (uct/internal.h), the engine configuration. *)
Record uct `{Foreign} : Type := {
  debug_level : Z;
  games : Z;
  gamelen : Z;
  expand_p : Z;
  dumpthres : Z;
  playout_amaf : bool;
  playout_amaf_nakade : bool;
  playout_amaf_cutoff : Z;
  amaf_prior : bool;
  dynkomi : Z;
  dynkomi_mask : Z;
  thread_model : uct_thread_model;
  threads : Z;
  force_seed : Z;
  no_book : bool;
  val_scale : fl;
  val_points : Z;
  val_extra : bool;
  root_heuristic : Z;
  pass_all_alive : bool;
  random_policy_chance : Z;
  policy : option uct_policy;
  random_policy : option uct_policy;
  playout : option playout_policy;
  prior : option uct_prior;
  banner : option string;
  resign_ratio : fl;
  loss_threshold : fl
}.

Arguments Build_uct {_}.

Definition set_debug_level `{Foreign} (v : Z) (u : uct) : uct :=
  Build_uct v (games u) (gamelen u) (expand_p u) (dumpthres u)
    (playout_amaf u) (playout_amaf_nakade u) (playout_amaf_cutoff u)
    (amaf_prior u) (dynkomi u) (dynkomi_mask u) (thread_model u) (threads u)
    (force_seed u) (no_book u) (val_scale u) (val_points u) (val_extra u)
    (root_heuristic u) (pass_all_alive u) (random_policy_chance u) (policy u)
    (random_policy u) (playout u) (prior u) (banner u) (resign_ratio u)
    (loss_threshold u).

Definition set_games `{Foreign} (v : Z) (u : uct) : uct :=
  Build_uct (debug_level u) v (gamelen u) (expand_p u) (dumpthres u)
    (playout_amaf u) (playout_amaf_nakade u) (playout_amaf_cutoff u)
    (amaf_prior u) (dynkomi u) (dynkomi_mask u) (thread_model u) (threads u)
    (force_seed u) (no_book u) (val_scale u) (val_points u) (val_extra u)
    (root_heuristic u) (pass_all_alive u) (random_policy_chance u) (policy u)
    (random_policy u) (playout u) (prior u) (banner u) (resign_ratio u)
    (loss_threshold u).

Definition set_gamelen `{Foreign} (v : Z) (u : uct) : uct :=
  Build_uct (debug_level u) (games u) v (expand_p u) (dumpthres u)
    (playout_amaf u) (playout_amaf_nakade u) (playout_amaf_cutoff u)
    (amaf_prior u) (dynkomi u) (dynkomi_mask u) (thread_model u) (threads u)
    (force_seed u) (no_book u) (val_scale u) (val_points u) (val_extra u)
    (root_heuristic u) (pass_all_alive u) (random_policy_chance u) (policy u)
    (random_policy u) (playout u) (prior u) (banner u) (resign_ratio u)
    (loss_threshold u).

Definition set_expand_p `{Foreign} (v : Z) (u : uct) : uct :=
  Build_uct (debug_level u) (games u) (gamelen u) v (dumpthres u)
    (playout_amaf u) (playout_amaf_nakade u) (playout_amaf_cutoff u)
    (amaf_prior u) (dynkomi u) (dynkomi_mask u) (thread_model u) (threads u)
    (force_seed u) (no_book u) (val_scale u) (val_points u) (val_extra u)
    (root_heuristic u) (pass_all_alive u) (random_policy_chance u) (policy u)
    (random_policy u) (playout u) (prior u) (banner u) (resign_ratio u)
    (loss_threshold u).

Definition set_dumpthres `{Foreign} (v : Z) (u : uct) : uct :=
  Build_uct (debug_level u) (games u) (gamelen u) (expand_p u) v
    (playout_amaf u) (playout_amaf_nakade u) (playout_amaf_cutoff u)
    (amaf_prior u) (dynkomi u) (dynkomi_mask u) (thread_model u) (threads u)
    (force_seed u) (no_book u) (val_scale u) (val_points u) (val_extra u)
    (root_heuristic u) (pass_all_alive u) (random_policy_chance u) (policy u)
    (random_policy u) (playout u) (prior u) (banner u) (resign_ratio u)
    (loss_threshold u).

Definition set_playout_amaf `{Foreign} (v : bool) (u : uct) : uct :=
  Build_uct (debug_level u) (games u) (gamelen u) (expand_p u) (dumpthres u)
    v (playout_amaf_nakade u) (playout_amaf_cutoff u) (amaf_prior u)
    (dynkomi u) (dynkomi_mask u) (thread_model u) (threads u) (force_seed u)
    (no_book u) (val_scale u) (val_points u) (val_extra u) (root_heuristic u)
    (pass_all_alive u) (random_policy_chance u) (policy u) (random_policy u)
    (playout u) (prior u) (banner u) (resign_ratio u) (loss_threshold u).

Definition set_playout_amaf_nakade `{Foreign} (v : bool) (u : uct) : uct :=
  Build_uct (debug_level u) (games u) (gamelen u) (expand_p u) (dumpthres u)
    (playout_amaf u) v (playout_amaf_cutoff u) (amaf_prior u) (dynkomi u)
    (dynkomi_mask u) (thread_model u) (threads u) (force_seed u) (no_book u)
    (val_scale u) (val_points u) (val_extra u) (root_heuristic u)
    (pass_all_alive u) (random_policy_chance u) (policy u) (random_policy u)
    (playout u) (prior u) (banner u) (resign_ratio u) (loss_threshold u).

Definition set_playout_amaf_cutoff `{Foreign} (v : Z) (u : uct) : uct :=
  Build_uct (debug_level u) (games u) (gamelen u) (expand_p u) (dumpthres u)
    (playout_amaf u) (playout_amaf_nakade u) v (amaf_prior u) (dynkomi u)
    (dynkomi_mask u) (thread_model u) (threads u) (force_seed u) (no_book u)
    (val_scale u) (val_points u) (val_extra u) (root_heuristic u)
    (pass_all_alive u) (random_policy_chance u) (policy u) (random_policy u)
    (playout u) (prior u) (banner u) (resign_ratio u) (loss_threshold u).

Definition set_amaf_prior `{Foreign} (v : bool) (u : uct) : uct :=
  Build_uct (debug_level u) (games u) (gamelen u) (expand_p u) (dumpthres u)
    (playout_amaf u) (playout_amaf_nakade u) (playout_amaf_cutoff u) v
    (dynkomi u) (dynkomi_mask u) (thread_model u) (threads u) (force_seed u)
    (no_book u) (val_scale u) (val_points u) (val_extra u) (root_heuristic u)
    (pass_all_alive u) (random_policy_chance u) (policy u) (random_policy u)
    (playout u) (prior u) (banner u) (resign_ratio u) (loss_threshold u).

Definition set_dynkomi `{Foreign} (v : Z) (u : uct) : uct :=
  Build_uct (debug_level u) (games u) (gamelen u) (expand_p u) (dumpthres u)
    (playout_amaf u) (playout_amaf_nakade u) (playout_amaf_cutoff u)
    (amaf_prior u) v (dynkomi_mask u) (thread_model u) (threads u)
    (force_seed u) (no_book u) (val_scale u) (val_points u) (val_extra u)
    (root_heuristic u) (pass_all_alive u) (random_policy_chance u) (policy u)
    (random_policy u) (playout u) (prior u) (banner u) (resign_ratio u)
    (loss_threshold u).

Definition set_dynkomi_mask `{Foreign} (v : Z) (u : uct) : uct :=
  Build_uct (debug_level u) (games u) (gamelen u) (expand_p u) (dumpthres u)
    (playout_amaf u) (playout_amaf_nakade u) (playout_amaf_cutoff u)
    (amaf_prior u) (dynkomi u) v (thread_model u) (threads u) (force_seed u)
    (no_book u) (val_scale u) (val_points u) (val_extra u) (root_heuristic u)
    (pass_all_alive u) (random_policy_chance u) (policy u) (random_policy u)
    (playout u) (prior u) (banner u) (resign_ratio u) (loss_threshold u).

Definition set_thread_model `{Foreign} (v : uct_thread_model) (u : uct) : uct :=
  Build_uct (debug_level u) (games u) (gamelen u) (expand_p u) (dumpthres u)
    (playout_amaf u) (playout_amaf_nakade u) (playout_amaf_cutoff u)
    (amaf_prior u) (dynkomi u) (dynkomi_mask u) v (threads u) (force_seed u)
    (no_book u) (val_scale u) (val_points u) (val_extra u) (root_heuristic u)
    (pass_all_alive u) (random_policy_chance u) (policy u) (random_policy u)
    (playout u) (prior u) (banner u) (resign_ratio u) (loss_threshold u).

Definition set_threads `{Foreign} (v : Z) (u : uct) : uct :=
  Build_uct (debug_level u) (games u) (gamelen u) (expand_p u) (dumpthres u)
    (playout_amaf u) (playout_amaf_nakade u) (playout_amaf_cutoff u)
    (amaf_prior u) (dynkomi u) (dynkomi_mask u) (thread_model u) v
    (force_seed u) (no_book u) (val_scale u) (val_points u) (val_extra u)
    (root_heuristic u) (pass_all_alive u) (random_policy_chance u) (policy u)
    (random_policy u) (playout u) (prior u) (banner u) (resign_ratio u)
    (loss_threshold u).

Definition set_force_seed `{Foreign} (v : Z) (u : uct) : uct :=
  Build_uct (debug_level u) (games u) (gamelen u) (expand_p u) (dumpthres u)
    (playout_amaf u) (playout_amaf_nakade u) (playout_amaf_cutoff u)
    (amaf_prior u) (dynkomi u) (dynkomi_mask u) (thread_model u) (threads u)
    v (no_book u) (val_scale u) (val_points u) (val_extra u)
    (root_heuristic u) (pass_all_alive u) (random_policy_chance u) (policy u)
    (random_policy u) (playout u) (prior u) (banner u) (resign_ratio u)
    (loss_threshold u).

Definition set_no_book `{Foreign} (v : bool) (u : uct) : uct :=
  Build_uct (debug_level u) (games u) (gamelen u) (expand_p u) (dumpthres u)
    (playout_amaf u) (playout_amaf_nakade u) (playout_amaf_cutoff u)
    (amaf_prior u) (dynkomi u) (dynkomi_mask u) (thread_model u) (threads u)
    (force_seed u) v (val_scale u) (val_points u) (val_extra u)
    (root_heuristic u) (pass_all_alive u) (random_policy_chance u) (policy u)
    (random_policy u) (playout u) (prior u) (banner u) (resign_ratio u)
    (loss_threshold u).

Definition set_val_scale `{Foreign} (v : fl) (u : uct) : uct :=
  Build_uct (debug_level u) (games u) (gamelen u) (expand_p u) (dumpthres u)
    (playout_amaf u) (playout_amaf_nakade u) (playout_amaf_cutoff u)
    (amaf_prior u) (dynkomi u) (dynkomi_mask u) (thread_model u) (threads u)
    (force_seed u) (no_book u) v (val_points u) (val_extra u)
    (root_heuristic u) (pass_all_alive u) (random_policy_chance u) (policy u)
    (random_policy u) (playout u) (prior u) (banner u) (resign_ratio u)
    (loss_threshold u).

Definition set_val_points `{Foreign} (v : Z) (u : uct) : uct :=
  Build_uct (debug_level u) (games u) (gamelen u) (expand_p u) (dumpthres u)
    (playout_amaf u) (playout_amaf_nakade u) (playout_amaf_cutoff u)
    (amaf_prior u) (dynkomi u) (dynkomi_mask u) (thread_model u) (threads u)
    (force_seed u) (no_book u) (val_scale u) v (val_extra u)
    (root_heuristic u) (pass_all_alive u) (random_policy_chance u) (policy u)
    (random_policy u) (playout u) (prior u) (banner u) (resign_ratio u)
    (loss_threshold u).

Definition set_val_extra `{Foreign} (v : bool) (u : uct) : uct :=
  Build_uct (debug_level u) (games u) (gamelen u) (expand_p u) (dumpthres u)
    (playout_amaf u) (playout_amaf_nakade u) (playout_amaf_cutoff u)
    (amaf_prior u) (dynkomi u) (dynkomi_mask u) (thread_model u) (threads u)
    (force_seed u) (no_book u) (val_scale u) (val_points u) v
    (root_heuristic u) (pass_all_alive u) (random_policy_chance u) (policy u)
    (random_policy u) (playout u) (prior u) (banner u) (resign_ratio u)
    (loss_threshold u).

Definition set_root_heuristic `{Foreign} (v : Z) (u : uct) : uct :=
  Build_uct (debug_level u) (games u) (gamelen u) (expand_p u) (dumpthres u)
    (playout_amaf u) (playout_amaf_nakade u) (playout_amaf_cutoff u)
    (amaf_prior u) (dynkomi u) (dynkomi_mask u) (thread_model u) (threads u)
    (force_seed u) (no_book u) (val_scale u) (val_points u) (val_extra u) v
    (pass_all_alive u) (random_policy_chance u) (policy u) (random_policy u)
    (playout u) (prior u) (banner u) (resign_ratio u) (loss_threshold u).

Definition set_pass_all_alive `{Foreign} (v : bool) (u : uct) : uct :=
  Build_uct (debug_level u) (games u) (gamelen u) (expand_p u) (dumpthres u)
    (playout_amaf u) (playout_amaf_nakade u) (playout_amaf_cutoff u)
    (amaf_prior u) (dynkomi u) (dynkomi_mask u) (thread_model u) (threads u)
    (force_seed u) (no_book u) (val_scale u) (val_points u) (val_extra u)
    (root_heuristic u) v (random_policy_chance u) (policy u)
    (random_policy u) (playout u) (prior u) (banner u) (resign_ratio u)
    (loss_threshold u).

Definition set_random_policy_chance `{Foreign} (v : Z) (u : uct) : uct :=
  Build_uct (debug_level u) (games u) (gamelen u) (expand_p u) (dumpthres u)
    (playout_amaf u) (playout_amaf_nakade u) (playout_amaf_cutoff u)
    (amaf_prior u) (dynkomi u) (dynkomi_mask u) (thread_model u) (threads u)
    (force_seed u) (no_book u) (val_scale u) (val_points u) (val_extra u)
    (root_heuristic u) (pass_all_alive u) v (policy u) (random_policy u)
    (playout u) (prior u) (banner u) (resign_ratio u) (loss_threshold u).

Definition set_policy `{Foreign} (v : option uct_policy) (u : uct) : uct :=
  Build_uct (debug_level u) (games u) (gamelen u) (expand_p u) (dumpthres u)
    (playout_amaf u) (playout_amaf_nakade u) (playout_amaf_cutoff u)
    (amaf_prior u) (dynkomi u) (dynkomi_mask u) (thread_model u) (threads u)
    (force_seed u) (no_book u) (val_scale u) (val_points u) (val_extra u)
    (root_heuristic u) (pass_all_alive u) (random_policy_chance u) v
    (random_policy u) (playout u) (prior u) (banner u) (resign_ratio u)
    (loss_threshold u).

Definition set_random_policy `{Foreign} (v : option uct_policy) (u : uct) : uct :=
  Build_uct (debug_level u) (games u) (gamelen u) (expand_p u) (dumpthres u)
    (playout_amaf u) (playout_amaf_nakade u) (playout_amaf_cutoff u)
    (amaf_prior u) (dynkomi u) (dynkomi_mask u) (thread_model u) (threads u)
    (force_seed u) (no_book u) (val_scale u) (val_points u) (val_extra u)
    (root_heuristic u) (pass_all_alive u) (random_policy_chance u) (policy u)
    v (playout u) (prior u) (banner u) (resign_ratio u) (loss_threshold u).

Definition set_playout `{Foreign} (v : option playout_policy) (u : uct) : uct :=
  Build_uct (debug_level u) (games u) (gamelen u) (expand_p u) (dumpthres u)
    (playout_amaf u) (playout_amaf_nakade u) (playout_amaf_cutoff u)
    (amaf_prior u) (dynkomi u) (dynkomi_mask u) (thread_model u) (threads u)
    (force_seed u) (no_book u) (val_scale u) (val_points u) (val_extra u)
    (root_heuristic u) (pass_all_alive u) (random_policy_chance u) (policy u)
    (random_policy u) v (prior u) (banner u) (resign_ratio u)
    (loss_threshold u).

Definition set_prior `{Foreign} (v : option uct_prior) (u : uct) : uct :=
  Build_uct (debug_level u) (games u) (gamelen u) (expand_p u) (dumpthres u)
    (playout_amaf u) (playout_amaf_nakade u) (playout_amaf_cutoff u)
    (amaf_prior u) (dynkomi u) (dynkomi_mask u) (thread_model u) (threads u)
    (force_seed u) (no_book u) (val_scale u) (val_points u) (val_extra u)
    (root_heuristic u) (pass_all_alive u) (random_policy_chance u) (policy u)
    (random_policy u) (playout u) v (banner u) (resign_ratio u)
    (loss_threshold u).

Definition set_banner `{Foreign} (v : option string) (u : uct) : uct :=
  Build_uct (debug_level u) (games u) (gamelen u) (expand_p u) (dumpthres u)
    (playout_amaf u) (playout_amaf_nakade u) (playout_amaf_cutoff u)
    (amaf_prior u) (dynkomi u) (dynkomi_mask u) (thread_model u) (threads u)
    (force_seed u) (no_book u) (val_scale u) (val_points u) (val_extra u)
    (root_heuristic u) (pass_all_alive u) (random_policy_chance u) (policy u)
    (random_policy u) (playout u) (prior u) v (resign_ratio u)
    (loss_threshold u).

Definition set_resign_ratio `{Foreign} (v : fl) (u : uct) : uct :=
  Build_uct (debug_level u) (games u) (gamelen u) (expand_p u) (dumpthres u)
    (playout_amaf u) (playout_amaf_nakade u) (playout_amaf_cutoff u)
    (amaf_prior u) (dynkomi u) (dynkomi_mask u) (thread_model u) (threads u)
    (force_seed u) (no_book u) (val_scale u) (val_points u) (val_extra u)
    (root_heuristic u) (pass_all_alive u) (random_policy_chance u) (policy u)
    (random_policy u) (playout u) (prior u) (banner u) v (loss_threshold u).

Definition set_loss_threshold `{Foreign} (v : fl) (u : uct) : uct :=
  Build_uct (debug_level u) (games u) (gamelen u) (expand_p u) (dumpthres u)
    (playout_amaf u) (playout_amaf_nakade u) (playout_amaf_cutoff u)
    (amaf_prior u) (dynkomi u) (dynkomi_mask u) (thread_model u) (threads u)
    (force_seed u) (no_book u) (val_scale u) (val_points u) (val_extra u)
    (root_heuristic u) (pass_all_alive u) (random_policy_chance u) (policy u)
    (random_policy u) (playout u) (prior u) (banner u) (resign_ratio u) v.

(** [struct engine], of which [uct.c] reads [data]. *)
Record engine `{Foreign} : Type := { data : uct }.

(** [enum group_status] of a judged group (playout.h). *)
Inductive group_status : Type := GS_NONE | GS_DEAD | GS_ALIVE | GS_UNKNOWN.

(** [enum point_judgement], in the order the print hook indexes its
    character tables: dame, black, white, unclear. *)
Inductive point_judgement : Type := PJ_DAME | PJ_BLACK | PJ_WHITE | PJ_UNKNOWN.

Definition GJ_MINGAMES : Z := 500.
Definition MC_GAMES : Z := 80000.

(** ** The process

    A call of the engine may write to standard error, set the halt flag,
    draw random numbers, and end the process instead of returning. *)

Record process `{Foreign} : Type := {
  stderr : list string;   (* the texts written to stderr, oldest first *)
  uct_halt : Z;           (* the global flag [uct_halt] *)
  rng : prng              (* the state behind fast_random() *)
}.

Inductive result (A : Type) : Type :=
| Returned (a : A)        (* the C function returns [a] *)
| Exited (status : Z)     (* [exit(status)] *)
| Aborted (expr : string) (* [assert(expr)] failed *)
| Stalled.                (* the model goes no further: the iteration bound
                             given to it ran out, or a node pointer leads
                             out of the tree *)

Arguments Returned {A} a.
Arguments Exited {A} status.
Arguments Aborted {A} expr.
Arguments Stalled {A}.

Definition M `{Foreign} (A : Type) : Type := process -> result A * process.

Definition ret `{Foreign} {A : Type} (a : A) : M A := fun p => (Returned a, p).

Definition bind `{Foreign} {A B : Type} (c : M A) (k : A -> M B) : M B :=
  fun p =>
    match c p with
    | (Returned a, p') => k a p'
    | (Exited n, p') => (Exited n, p')
    | (Aborted e, p') => (Aborted e, p')
    | (Stalled, p') => (Stalled, p')
    end.

Notation "x <- c ;; k" := (bind c (fun x => k))
  (at level 61, c at next level, right associativity).
Notation "' pat <- c ;; k" := (bind c (fun x => match x with pat => k end))
  (at level 61, pat pattern, c at next level, right associativity).
Notation "c ;; k" := (bind c (fun _ => k))
  (at level 61, right associativity).

Definition put_stderr `{Foreign} (l : list string) (p : process) : process :=
  {| stderr := (stderr p ++ l)%list; uct_halt := uct_halt p; rng := rng p |}.

(** [fprintf(stderr, ...)] with the formatted text [s]. *)
Definition fprintf_stderr `{Foreign} (s : string) : M unit :=
  fun p => (Returned tt, put_stderr [s] p).

Definition exit `{Foreign} {A : Type} (status : Z) : M A :=
  fun p => (Exited status, p).

(** [assert(expr)]: on failure the diagnostic goes to stderr and the process
    aborts (the assertions are compiled in: the file defines no NDEBUG). *)
Definition assert `{Foreign} (holds : bool) (expr : string) : M unit :=
  fun p =>
    if holds then (Returned tt, p)
    else (Aborted expr, put_stderr ["Assertion failed: " ++ expr] p).

Definition stall `{Foreign} {A : Type} : M A := fun p => (Stalled, p).

Definition when `{Foreign} (c : bool) (k : M unit) : M unit :=
  if c then k else ret tt.

Definition set_uct_halt `{Foreign} (v : Z) : M unit :=
  fun p => (Returned tt,
            {| stderr := stderr p; uct_halt := v; rng := rng p |}).

Definition get_rng `{Foreign} : M prng := fun p => (Returned (rng p), p).

Definition set_rng `{Foreign} (r : prng) : M unit :=
  fun p => (Returned tt,
            {| stderr := stderr p; uct_halt := uct_halt p; rng := r |}).

(** ** The root-parallel workers, seen from the driver *)

(** [struct spawn_ctx] as the driver fills it before [pthread_create]. *)
Record spawn_ctx `{Foreign} : Type := {
  tid : Z;
  ctx_u : uct;
  ctx_b : board;
  ctx_color : stone;
  ctx_t : tree;
  seed : Z
}.

(** What the driver finds when [pthread_cond_wait] returns: the worker named
    by [finish_thread], the [games] and the tree its context now holds, and
    the ownership map of the board, which the workers write while the driver
    waits. *)
Record completion `{Foreign} : Type := {
  finish_thread : Z;
  done_games : Z;
  done_t : tree;
  seen_ownermap : playout_ownermap
}.

(** The order in which the spawned workers finish and what each brings back
    is the scheduler's choice: the [k]-th completion, given the contexts. *)
Definition schedule `{Foreign} : Type := list spawn_ctx -> nat -> completion.

(** ** The collaborators of uct.c

    Everything [uct.c] calls that lives in another file of the engine. *)
Class Collaborators `{Foreign} : Type := {
  (* C floating point *)
  fl_lit : Q -> fl;               (* a decimal literal of the source *)
  fl_ltb : fl -> fl -> bool;      (* x < y *)
  fl_scale : fl -> Z -> fl;       (* x * n *)
  fl_to_int : fl -> Z;            (* (int) x *)
  atof : string -> fl;
  fmt_f : nat -> fl -> string;    (* printf's %.Nf *)
  (* debug.h, uct/internal.h *)
  UDEBUGL : uct -> Z -> bool;
  (* board.h, move.h, tactics.h *)
  MAX_GAMELEN : Z;
  group_at : board -> Z -> Z;
  stone2str : stone -> string;
  coord2sstr : coord_t -> board -> string;
  coord_x : coord_t -> board -> Z;
  coord_y : coord_t -> board -> Z;
  pass_is_safe : board -> stone -> move_queue -> bool;
  (* random.h *)
  fast_srandom : Z -> prng;
  fast_getseed : prng -> Z;
  fast_random : Z -> prng -> Z * prng;
  (* uct/tree.h *)
  tree_init : board -> stone -> tree;
  tree_load : tree -> board -> tree;
  tree_promote_at : tree -> board -> coord_t -> option tree;
  tree_promote_node : tree -> node_ptr -> tree;
  tree_copy : tree -> tree;
  tree_merge : tree -> tree -> tree;
  tree_normalize : tree -> Z -> tree;
  tree_node_get_value : tree -> Z -> fl -> fl;
  tree_dump : tree -> Z -> list string;
  (* uct/walk.h, uct/internal.h *)
  uct_playout : uct -> board -> stone -> uct_board -> M (Z * uct_board);
  uct_playouts : uct -> board -> stone -> uct_board -> M (Z * uct_board);
  uct_progress_status : uct -> tree -> stone -> Z -> list string;
  uct_get_extra_komi : uct -> board -> fl;
  (* the tree policies *)
  policy_ucb1_init : uct -> option string -> uct_policy;
  policy_ucb1amaf_init : uct -> option string -> uct_policy;
  (* the node chosen below the given one, NULL being [None] *)
  choose : uct_policy -> tree_node -> board -> stone -> option node_ptr;
  (* playout.h, playout/moggy.h, playout/light.h, uct/prior.h *)
  playout_moggy_init : option string -> playout_policy;
  playout_light_init : option string -> playout_policy;
  playout_ownermap_judge_group :
    board -> playout_ownermap -> fl -> Z -> group_status;
  playout_ownermap_judge_point :
    playout_ownermap -> coord_t -> fl -> point_judgement;
  uct_prior_init : option string -> uct_prior
}.

(** ** uct.c *)

Section Uct.

Context `{Collaborators}.

Import Libc.

(** How big proportion of ownermap counts must be of one color to consider
    the point sure. *)
Definition GJ_THRES : fl := fl_lit (8 # 10).

Definition MC_GAMELEN : Z := MAX_GAMELEN.

Definition stderr_lines (l : list string) : M unit :=
  fun p => (Returned tt, put_stderr l p).

(** [prepare_move]: check the state kept from the previous move, or build a
    fresh one; then set the dynamic komi and clear the ownership map. *)
Definition prepare_move (e : engine) (b : board) (color : stone) : M board :=
  let u := data e in
  ub <- match es b with
        | Some ub =>
            (* Verify that we don't have stale state from last game. *)
            assert (negb (moves b =? 0)) "ub->t && b->moves" ;;
            if negb (stone_eqb color (stone_other (root_color (ub_t ub))))
            then
              fprintf_stderr
                ("Fatal: Non-alternating play detected "
                   ++ fmt_d (stone_num color) ++ " "
                   ++ fmt_d (stone_num (root_color (ub_t ub))) ++ nl) ;;
              exit 1
            else ret ub
        | None =>
            (* We need fresh state. *)
            let t := tree_init b color in
            when (negb (force_seed u =? 0))
                 (set_rng (fast_srandom (force_seed u))) ;;
            when (UDEBUGL u 0)
                 (r <- get_rng ;;
                  fprintf_stderr ("Fresh board with random seed "
                                    ++ fmt_d (fast_getseed r) ++ nl)) ;;
            t <- (if negb (no_book u) && (moves b =? 0)
                  then assert (stone_eqb color S_BLACK) "color == S_BLACK" ;;
                       ret (tree_load t b)
                  else ret t) ;;
            ret {| ub_t := t;
                   ub_ownermap := {| om_playouts := 0; om_map := [] |} |}
        end ;;
  let t :=
    if negb (dynkomi u =? 0) && (moves b <? dynkomi u)
       && negb (Z.land (stone_num color) (dynkomi_mask u) =? 0)
    then set_extra_komi (uct_get_extra_komi u (set_es (Some ub) b)) (ub_t ub)
    else ub_t ub in
  ret (set_es
         (Some {| ub_t := t;
                  ub_ownermap :=
                    {| om_playouts := 0;
                       om_map := repeat (0, 0, 0)
                                        (Z.to_nat (board_size2 b)) |} |})
         b).

(** [uct_done_board_state]: drop the per-game state. *)
Definition uct_done_board_state (e : engine) (b : board) : M board :=
  match es b with
  | None => assert false "ub" ;; ret b
  | Some _ => ret (set_es None b)
  end.

(** [foreach_point(b)]: the body at every point of the board, in order. *)
Fixpoint foreach_point {A : Type} (points : list Z)
         (body : Z -> A -> M A) (a : A) : M A :=
  match points with
  | [] => ret a
  | c :: rest => a' <- body c a ;; foreach_point rest body a'
  end.

Definition board_points (b : board) : list Z :=
  map Z.of_nat (seq 0 (Z.to_nat (board_size2 b))).

(** [dead_group_list] (static): queue the groups judged dead. *)
Definition dead_group_list (u : uct) (b : board) (mq : move_queue)
  : M move_queue :=
  match es b with
  | None => assert false "ub" ;; ret mq
  | Some ub =>
      let gs := playout_ownermap_judge_group b (ub_ownermap ub) GJ_THRES in
      foreach_point (board_points b)
        (fun c mq =>
           let g := group_at b c in
           if (g =? 0) || negb (g =? c) then ret mq
           else
             assert (match gs g with GS_NONE => false | _ => true end)
                    "gj.gs[g] != GS_NONE" ;;
             match gs g with
             | GS_DEAD => ret (mq_add mq (at_point g))
             | _ => ret mq (* else we assume the worst - alive. *)
             end)
        mq
  end.

(** [uct_pass_is_safe]. *)
Definition uct_pass_is_safe (u : uct) (b : board) (color : stone) : M bool :=
  match es b with
  | None => assert false "ub" ;; ret false
  | Some ub =>
      if om_playouts (ub_ownermap ub) <? GJ_MINGAMES then ret false
      else
        mq <- (if negb (pass_all_alive u) then dead_group_list u b []
               else ret []) ;;
        ret (pass_is_safe b color mq)
  end.

Definition pj_index (j : point_judgement) : nat :=
  match j with PJ_DAME => 0 | PJ_BLACK => 1 | PJ_WHITE => 2 | PJ_UNKNOWN => 3 end%nat.

Definition char_at (table : string) (j : point_judgement) : ascii :=
  match String.get (pj_index j) table with
  | Some c => c
  | None => Ascii.zero
  end.

(** [uct_printhook_ownermap]: [f] is the text written to the stream so far. *)
Definition uct_printhook_ownermap (b : board) (c : coord_t) (f : string)
  : string :=
  match es b with
  | None => f (* no UCT state; can happen e.g. after resign *)
  | Some ub =>
      let chr := ":XO," in (* dame, black, white, unclear *)
      let chm := ":xo," in
      let ch :=
        char_at chr (playout_ownermap_judge_point (ub_ownermap ub) c GJ_THRES) in
      let ch :=
        if Ascii.eqb ch ","
        then char_at chm (playout_ownermap_judge_point
                            (ub_ownermap ub) c (fl_lit (67 # 100)))
        else ch in
      f ++ String ch " "
  end.

Definition set_ub_t (t : tree) (ub : uct_board) : uct_board :=
  {| ub_t := t; ub_ownermap := ub_ownermap ub |}.

(** [uct_notify_play]. *)
Definition uct_notify_play (e : engine) (b : board) (m : move) : M board :=
  let u := data e in
  b <- match es b with
       | None =>
           (* No state, create one - this is probably game beginning
              and we need to load the opening book right now. *)
           prepare_move e b (m_color m)
       | Some _ => ret b
       end ;;
  match es b with
  | None => assert false "b->es" ;; ret b
  | Some ub =>
      if is_resign (m_coord m) then
        (* Reset state. *)
        uct_done_board_state e b
      else
        (* Promote node of the appropriate move to the tree root. *)
        match tree_promote_at (ub_t ub) b (m_coord m) with
        | None =>
            when (UDEBUGL u 0)
                 (fprintf_stderr
                    ("Warning: Cannot promote move node! "
                       ++ "Several play commands in row?" ++ nl)) ;;
            uct_done_board_state e b
        | Some t' => ret (set_es (Some (set_ub_t t' ub)) b)
        end
  end.

(** The white space [uct_chat] skips: space, newline, tab. *)
Definition chat_blanks : string :=
  String " " (String (ascii_of_nat 10) (String (ascii_of_nat 9) EmptyString)).

(** [snprintf(reply, 1024, ...)] keeps at most 1023 characters. *)
Definition snprintf_1024 (s : string) : string := substring 0 1023 s.

(** [uct_chat]; [None] is the NULL reply. *)
Definition uct_chat (e : engine) (b : board) (cmd : string) : option string :=
  let u := data e in
  let cmd := skip_span chat_blanks cmd in
  if strncasecmp cmd "winrate" 7 =? 0 then
    match es b with
    | None => Some "no game context (yet?)"
    | Some ub =>
        let t := ub_t ub in
        let color := root_color t in
        let n := root t in
        let reply :=
          snprintf_1024
            ("In " ++ fmt_d (playouts (node_u n)) ++ "*" ++ fmt_d (threads u)
               ++ " playouts, " ++ stone2str color ++ " "
               ++ coord2sstr (coord n) b ++ " can win with "
               ++ fmt_f 2 (fl_scale
                             (tree_node_get_value t (-1) (value (node_u n)))
                             100)
               ++ "% probability") in
        (* abs() is the integer function: extra_komi is converted to int *)
        let reply :=
          if Qle_bool (1 # 2) (inject_Z (Z.abs (fl_to_int (extra_komi t))))
          then reply ++ ", while self-imposing extra komi "
                     ++ fmt_f 1 (extra_komi t)
          else reply in
        Some (reply ++ ".")
    end
  else None.

(** [for (i = 0; i < GJ_MINGAMES; i++) uct_playout(u, b, S_BLACK, ub->t)],
    for [n] rounds: the playouts that seed the ownership map of a mock
    state, whatever each of them returns. *)
Fixpoint seed_ownermap (n : nat) (u : uct) (b : board) (ub : uct_board)
  : M uct_board :=
  match n with
  | O => ret ub
  | S n' =>
      '(_, ub') <- uct_playout u (set_es (Some ub) b) S_BLACK ub ;;
      seed_ownermap n' u b ub'
  end.

(** [uct_dead_group_list]: the queue with the dead groups added, and the
    board. *)
Definition uct_dead_group_list (e : engine) (b : board) (mq : move_queue)
  : M (move_queue * board) :=
  let u := data e in
  if pass_all_alive u then ret (mq, b) (* no dead groups *)
  else
    '(b, mock_state) <-
      match es b with
      | Some _ => ret (b, false)
      | None =>
          (* No state, but we cannot just back out - we might
             have passed earlier, only assuming some stones are
             dead, and then re-connected, only to lose counting
             when all stones are assumed alive. *)
          (* Mock up some state and seed the ownermap by few
             simulations. *)
          b <- prepare_move e b S_BLACK ;;
          match es b with
          | None => assert false "ub" ;; ret (b, true)
          | Some ub =>
              ub <- seed_ownermap (Z.to_nat GJ_MINGAMES) u b ub ;;
              ret (set_es (Some ub) b, true)
          end
      end ;;
    mq <- dead_group_list u b mq ;;
    if mock_state : bool then
      (* Clean up the mock state in case we will receive
         a genmove; we could get a non-alternating-move
         error from prepare_move() in that case otherwise. *)
      b <- uct_done_board_state e b ;;
      ret (mq, b)
    else ret (mq, b).

(** *** The root-parallel driver *)

(** The driver's variables in the collecting loop: [played_games],
    [joined], the tree [t] being merged into, and the ownership map of the
    board as last seen. *)
Record driver : Type := {
  played_games : Z;
  joined : Z;
  master : tree;
  shared_map : playout_ownermap
}.

(** Spawn threads...: [n] contexts from thread number [ti] on. *)
Fixpoint spawn_threads (n : nat) (ti : Z) (u : uct) (b : board)
         (color : stone) (t : tree) : M (list spawn_ctx) :=
  match n with
  | O => ret []
  | S n' =>
      r <- get_rng ;;
      let '(x, r') := fast_random 65536 r in
      set_rng r' ;;
      let ctx := {| tid := ti; ctx_u := u; ctx_b := b; ctx_color := color;
                    ctx_t := tree_copy t; seed := x + ti |} in
      when (UDEBUGL u 2)
           (fprintf_stderr ("Spawned thread " ++ fmt_d ti ++ nl)) ;;
      rest <- spawn_threads n' (ti + 1) u b color t ;;
      ret (ctx :: rest)
  end.

(** One round of the collecting loop: wait for some thread to finish and
    gather its remnants. *)
Definition collect_one (u : uct) (finished : nat -> completion) (d : driver)
  : M driver :=
  let c := finished (Z.to_nat (joined d)) in
  let d' := {| played_games := played_games d + done_games c;
               joined := joined d + 1;
               master := tree_merge (master d) (done_t c);
               shared_map := seen_ownermap c |} in
  when (UDEBUGL u 2)
       (fprintf_stderr ("Joined thread " ++ fmt_d (finish_thread c) ++ nl)) ;;
  (* Do not get stalled by slow threads. *)
  when (Z.quot (threads u) 2 <=? joined d') (set_uct_halt 1) ;;
  ret d'.

(** [while (joined < u->threads) ...], cut after [n] rounds. *)
Fixpoint collect (n : nat) (u : uct) (finished : nat -> completion)
         (d : driver) : M driver :=
  match n with
  | O => ret d
  | S n' =>
      if joined d <? threads u
      then d' <- collect_one u finished d ;; collect n' u finished d'
      else ret d
  end.

(** The root-parallel branch of [uct_threaded_playouts] up to the end of
    the collecting loop, the loop being cut after [rounds] rounds. *)
Definition root_driver (rounds : nat) (sched : schedule) (u : uct)
           (b : board) (color : stone) (ub : uct_board) : M driver :=
  assert (0 <? threads u) "u->threads > 0" ;;
  set_uct_halt 0 ;;
  (* Spawn threads... *)
  ctxs <- spawn_threads (Z.to_nat (threads u)) 0 u b color (ub_t ub) ;;
  (* ...and collect them back: *)
  collect rounds u (sched ctxs)
          {| played_games := 0; joined := 0; master := ub_t ub;
             shared_map := ub_ownermap ub |}.

(** [uct_threaded_playouts]; [ub] is the state [b->es] that [t] lives in.
    The loop ends when [joined] reaches [u->threads], which takes
    [u->threads] rounds. *)
Definition uct_threaded_playouts (sched : schedule) (u : uct) (b : board)
           (color : stone) (ub : uct_board) : M (Z * uct_board) :=
  match thread_model u with
  | TM_NONE => uct_playouts u b color ub
  | TM_ROOT =>
      d <- root_driver (Z.to_nat (threads u)) sched u b color ub ;;
      ret (played_games d,
           {| ub_t := tree_normalize (master d) (threads u);
              ub_ownermap := shared_map d |})
  end.

(** *** Move generation *)

Definition superko_warning : list string :=
  [ "!!! WARNING: SUPERKO VIOLATION OCCURED BEFORE THIS MOVE" ++ nl;
    "Maybe you play with situational instead of positional superko?" ++ nl;
    "I'm going to ignore the violation, but note that I may miss" ++ nl;
    "some moves valid under this ruleset because of this." ++ nl ].

(** The first half of [uct_genmove]: seed the tree and run the
    simulations (up to the call of the policy's [choose]). *)
Definition genmove_search (sched : schedule) (e : engine) (b : board)
           (color : stone) : M (Z * board) :=
  let u := data e in
  b <- (if superko_violation b
        then stderr_lines superko_warning ;;
             ret (set_superko_violation false b)
        else ret b) ;;
  (* Seed the tree. *)
  b <- prepare_move e b color ;;
  match es b with
  | None => assert false "ub" ;; ret (0, b)
  | Some ub =>
      (* Run the simulations. *)
      '(played_games, ub) <- uct_threaded_playouts sched u b color ub ;;
      when (UDEBUGL u 2) (stderr_lines (tree_dump (ub_t ub) (dumpthres u))) ;;
      ret (played_games, set_es (Some ub) b)
  end.

(** [while (ub->ownermap.playouts < GJ_MINGAMES) uct_playout(...)], with at
    most [n] playouts. *)
Fixpoint enough_playouts (n : nat) (u : uct) (b : board) (color : stone)
         (ub : uct_board) {struct n} : M uct_board :=
  if om_playouts (ub_ownermap ub) <? GJ_MINGAMES then
    match n with
    | O => stall
    | S n' =>
        '(_, ub') <- uct_playout u (set_es (Some ub) b) color ub ;;
        enough_playouts n' u b color ub'
    end
  else ret ub.

Definition winner_line (u : uct) (b : board) (t : tree) (best : tree_node)
           (played_games : Z) : string :=
  "*** WINNER is " ++ coord2sstr (coord best) b
    ++ " (" ++ fmt_d (coord_x (coord best) b) ++ ","
    ++ fmt_d (coord_y (coord best) b) ++ ") with score "
    ++ fmt_f 4 (tree_node_get_value t 1 (value (node_u best)))
    ++ " (" ++ fmt_d (playouts (node_u best)) ++ "/"
    ++ fmt_d (playouts (node_u (root t))) ++ ":"
    ++ fmt_d played_games ++ " games)" ++ nl.

(** Reading through [best], a pointer into the tree [t]. *)
Definition deref (t : tree) (best : node_ptr) : M tree_node :=
  match node_at (root t) best with
  | Some n => ret n
  | None => stall
  end.

(** The second half of [uct_genmove], from the chosen node on.  [best]
    points into the tree of [ub]: what is read through it is what the tree
    holds at that moment, and [best->coord = pass] writes into the tree that
    is promoted afterwards. *)
Definition genmove_decide (fuel : nat) (e : engine) (b : board)
           (color : stone) (ub : uct_board) (played_games : Z)
           (best : node_ptr) : M (coord_t * board) :=
  let u := data e in
  when (UDEBUGL u 0)
       (stderr_lines (uct_progress_status u (ub_t ub) color played_games)) ;;
  chosen <- deref (ub_t ub) best ;;
  when (UDEBUGL u 1)
       (fprintf_stderr (winner_line u b (ub_t ub) chosen played_games)) ;;
  if fl_ltb (tree_node_get_value (ub_t ub) 1 (value (node_u chosen)))
            (resign_ratio u)
     && negb (is_pass (coord chosen))
  then
    b <- uct_done_board_state e b ;;
    ret (resign, b)
  else
    (* If the opponent just passed and we win counting, always
       pass as well. *)
    ub <-
      (if (1 <? moves b) && is_pass (m_coord (last_move b)) then
         (* Make sure enough playouts are simulated. *)
         ub <- enough_playouts fuel u b color ub ;;
         safe <- uct_pass_is_safe u (set_es (Some ub) b) color ;;
         if safe then
           when (UDEBUGL u 0)
                (fprintf_stderr
                   ("<Will rather pass, looks safe enough.>" ++ nl)) ;;
           ret (set_ub_t (set_coord_at (ub_t ub) best pass) ub)
         else ret ub
       else ret ub) ;;
    (* tree_promote_node makes the node the root and leaves its coord *)
    chosen <- deref (ub_t ub) best ;;
    ret (coord chosen,
         set_es (Some (set_ub_t (tree_promote_node (ub_t ub) best) ub)) b).

(** [uct_genmove]; [fuel] bounds the extra playouts before passing. *)
Definition uct_genmove (sched : schedule) (fuel : nat) (e : engine)
           (b : board) (color : stone) : M (coord_t * board) :=
  let u := data e in
  '(played_games, b) <- genmove_search sched e b color ;;
  match es b, policy u with
  | Some ub, Some pol =>
      (* Choose the best move from the tree. *)
      match choose pol (root (ub_t ub)) b color with
      | None =>
          b <- uct_done_board_state e b ;;
          ret (pass, b)
      | Some best => genmove_decide fuel e b color ub played_games best
      end
  | None, _ => assert false "ub" ;; ret (pass, b)
  | _, None => assert false "u->policy" ;; ret (pass, b)
  end.

(** *** The configuration parser *)

(** [!strcasecmp(a, b)]. *)
Definition eq_nocase (a b : string) : bool := strcasecmp a b =? 0.

(** [optval] as a condition, and the text it points to. *)
Definition has {A : Type} (optval : option A) : bool :=
  match optval with Some _ => true | None => false end.

Definition text (optval : option string) : string :=
  match optval with Some v => v | None => EmptyString end.

(** [optval && *optval == '0']. *)
Definition starts_with_0 (optval : option string) : bool :=
  match optval with Some (String "0" _) => true | _ => false end.

Definition nonzero (z : Z) : bool := negb (z =? 0).

(** What handling one option leads to: the next option, or [break]. *)
Inductive parsed : Type :=
| Continue (u : uct)
| Break (u : uct).

(** The body of the parsing loop once [optname] and [optval] are cut out;
    [next] is the text after the comma that ended the option. *)
Definition parse_option (optname : string) (optval : option string)
           (next : string) (u : uct) : M parsed :=
  let v := text optval in
  if eq_nocase optname "debug" then
    ret (Continue (set_debug_level
                     (match optval with
                      | Some v => atoi v
                      | None => int_of (debug_level u + 1)
                      end) u))
  else if eq_nocase optname "games" && has optval then
    ret (Continue (set_games (atoi v) u))
  else if eq_nocase optname "gamelen" && has optval then
    ret (Continue (set_gamelen (atoi v) u))
  else if eq_nocase optname "expand_p" && has optval then
    ret (Continue (set_expand_p (atoi v) u))
  else if eq_nocase optname "dumpthres" && has optval then
    ret (Continue (set_dumpthres (atoi v) u))
  else if eq_nocase optname "playout_amaf" then
    ret (Continue (set_playout_amaf (negb (starts_with_0 optval)) u))
  else if eq_nocase optname "playout_amaf_nakade" then
    ret (Continue (set_playout_amaf_nakade (negb (starts_with_0 optval)) u))
  else if eq_nocase optname "playout_amaf_cutoff" && has optval then
    ret (Continue (set_playout_amaf_cutoff (atoi v) u))
  else if (eq_nocase optname "policy" || eq_nocase optname "random_policy") && has optval
  then
    let '(name, policyarg) := cut ":" v in
    let store := fun p : uct_policy =>
                   if eq_nocase optname "policy" then set_policy (Some p) u
                   else set_random_policy (Some p) u in
    if eq_nocase name "ucb1" then
      ret (Continue (store (policy_ucb1_init u policyarg)))
    else if eq_nocase name "ucb1amaf" then
      ret (Continue (store (policy_ucb1amaf_init u policyarg)))
    else
      fprintf_stderr ("UCT: Invalid tree policy " ++ name ++ nl) ;;
      exit 1
  else if eq_nocase optname "playout" && has optval then
    let '(name, playoutarg) := cut ":" v in
    if eq_nocase name "moggy" then
      ret (Continue (set_playout (Some (playout_moggy_init playoutarg)) u))
    else if eq_nocase name "light" then
      ret (Continue (set_playout (Some (playout_light_init playoutarg)) u))
    else
      fprintf_stderr ("UCT: Invalid playout policy " ++ name ++ nl) ;;
      exit 1
  else if eq_nocase optname "prior" && has optval then
    ret (Continue (set_prior (Some (uct_prior_init (Some v))) u))
  else if eq_nocase optname "amaf_prior" && has optval then
    ret (Continue (set_amaf_prior (nonzero (atoi v)) u))
  else if eq_nocase optname "threads" && has optval then
    ret (Continue (set_threads (atoi v) u))
  else if eq_nocase optname "thread_model" && has optval then
    if eq_nocase v "none" then
      (* Turn off multi-threaded reading. *)
      ret (Continue (set_thread_model TM_NONE u))
    else if eq_nocase v "root" then
      (* Root parallelization - each thread does independent search,
         trees are merged at the end. *)
      ret (Continue (set_thread_model TM_ROOT u))
    else
      fprintf_stderr ("UCT: Invalid thread model " ++ v ++ nl) ;;
      exit 1
  else if eq_nocase optname "force_seed" && has optval then
    ret (Continue (set_force_seed (atoi v) u))
  else if eq_nocase optname "no_book" then
    ret (Continue (set_no_book true u))
  else if eq_nocase optname "dynkomi" then
    ret (Continue (set_dynkomi
                     (match optval with Some v => atoi v | None => 150 end)
                     u))
  else if eq_nocase optname "dynkomi_mask" && has optval then
    ret (Continue (set_dynkomi_mask (atoi v) u))
  else if eq_nocase optname "val_scale" && has optval then
    ret (Continue (set_val_scale (atof v) u))
  else if eq_nocase optname "val_points" && has optval then
    (* result values are doubled; the product is kept as an int *)
    ret (Continue (set_val_points (int_of (atoi v * 2)) u))
  else if eq_nocase optname "val_extra" then
    ret (Continue (set_val_extra
                     (match optval with
                      | None => true
                      | Some v => nonzero (atoi v)
                      end) u))
  else if eq_nocase optname "root_heuristic" && has optval then
    ret (Continue (set_root_heuristic (atoi v) u))
  else if eq_nocase optname "pass_all_alive" then
    ret (Continue (set_pass_all_alive
                     (match optval with
                      | None => true
                      | Some v => nonzero (atoi v)
                      end) u))
  else if eq_nocase optname "random_policy_chance" && has optval then
    ret (Continue (set_random_policy_chance (atoi v) u))
  else if eq_nocase optname "banner" && has optval then
    (* Additional banner string. This must come as the last engine
       parameter: the comma is put back and the value runs to the end. *)
    ret (Break (set_banner
                  (Some (match next with
                         | EmptyString => v
                         | _ => v ++ "," ++ next
                         end)) u))
  else
    fprintf_stderr ("uct: Invalid engine argument " ++ optname
                      ++ " or missing value" ++ nl) ;;
    exit 1.

(** The parsing loop, while [next] is not at the end of the string; at most
    [n] options are read. *)
Fixpoint parse_options (n : nat) (next : string) (u : uct) : M uct :=
  match next with
  | EmptyString => ret u
  | _ =>
      match n with
      | O => stall
      | S n' =>
          let '(optspec, rest) := cut "," next in
          let next := text rest in
          let '(optname, optval) := cut "=" optspec in
          r <- parse_option optname optval next u ;;
          match r with
          | Continue u => parse_options n' next u
          | Break u => ret u
          end
      end
  end.

(** The settings before the argument string is read (the structure is
    zeroed by calloc first). *)
Definition uct_defaults : uct :=
  {| debug_level := 1;
     games := MC_GAMES;
     gamelen := MC_GAMELEN;
     expand_p := 2;
     dumpthres := 1000;
     playout_amaf := true;
     playout_amaf_nakade := false;
     playout_amaf_cutoff := 0;
     amaf_prior := false;
     dynkomi := 0;
     dynkomi_mask := stone_num S_BLACK;
     thread_model := TM_ROOT;
     threads := 0;
     force_seed := 0;
     no_book := false;
     val_scale := fl_lit (2 # 100);
     val_points := 20;
     val_extra := false;
     root_heuristic := 0;
     pass_all_alive := false;
     random_policy_chance := 0;
     policy := None;
     random_policy := None;
     playout := None;
     prior := None;
     banner := None;
     resign_ratio := fl_lit 0;
     loss_threshold := fl_lit 0 |}.

(** The part of [uct_state_init] after the parsing loop. *)
Definition finish_state (u : uct) : M uct :=
  (* Resign when most games are lost. *)
  let u := set_resign_ratio (fl_lit (2 # 10)) u in
  (* Stop reading if after at least 5000 playouts this is best value. *)
  let u := set_loss_threshold (fl_lit (85 # 100)) u in
  let u := if has (policy u) then u
           else set_policy (Some (policy_ucb1amaf_init u None)) u in
  let u := if threads u =? 0 then set_thread_model TM_NONE u else u in
  if xorb (nonzero (random_policy_chance u)) (has (random_policy u)) then
    fprintf_stderr
      ("uct: Only one of random_policy and random_policy_chance is set"
         ++ nl) ;;
    exit 1
  else
    let u := if has (prior u) then u
             else set_prior (Some (uct_prior_init None)) u in
    let pp := match playout u with
              | Some pp => pp
              | None => playout_moggy_init None
              end in
    ret (set_playout
           (Some {| pp_data := pp_data pp;
                    pp_debug_level := debug_level u |}) u).

(** The parsing loop of [uct_state_init] on the argument string. *)
Definition read_options (arg : option string) : M uct :=
  match arg with
  | Some a => parse_options (String.length a) a uct_defaults
  | None => ret uct_defaults
  end.

(** [uct_state_init]; [None] is a NULL argument. *)
Definition uct_state_init (arg : option string) : M uct :=
  u <- read_options arg ;;
  finish_state u.

End Uct.

(** ** A concrete set of collaborators

    Small stand-ins for the other files of the engine, on which the model
    runs: floats are rationals, a tree policy keeps its name, a position
    lists the group of every point, and a playout records one game in the
    ownership map. *)

Module Sample.

#[local] Instance foreign : Foreign := {|
  fl := Q;
  uct_policy := string;
  playout_data := string;
  uct_prior := option string;
  position := list Z;
  prng := Z
|}.

Definition ltb (x y : Q) : bool := negb (Qle_bool y x).

(** Truncation towards zero. *)
Definition to_int (x : Q) : Z := Z.quot (Qnum x) (Zpos (Qden x)).

Definition pow10 (n : nat) : Z := 10 ^ Z.of_nat n.

Fixpoint pad (n : nat) (s : string) : string :=
  match n with
  | O => s
  | S n' => if (String.length s <? n)%nat then pad n' ("0" ++ s) else s
  end.

(** Fixed-point printing with [n] decimals, rounding half up. *)
Definition print_fixed (n : nat) (x : Q) : string :=
  let scaled :=
    (2 * Z.abs (Qnum x) * pow10 n + Zpos (Qden x)) / (2 * Zpos (Qden x)) in
  (if Qnum x <? 0 then "-" else EmptyString)
    ++ Libc.fmt_d (scaled / pow10 n)
    ++ match n with
       | O => EmptyString
       | _ => "." ++ pad n (Libc.fmt_d (scaled mod pow10 n))
       end.

Definition debug_above (u : uct) (n : Z) : bool := n <? debug_level u.

Definition color_name (s : stone) : string :=
  match s with
  | S_NONE => "none"
  | S_BLACK => "black"
  | S_WHITE => "white"
  | S_OFFBOARD => "offboard"
  end.

Definition coord_name (c : coord_t) (b : board) : string :=
  match c with
  | pass => "pass"
  | resign => "resign"
  | at_point n => "#" ++ Libc.fmt_d n
  end.

Definition point_of (c : coord_t) : Z :=
  match c with at_point n => n | _ => -1 end.

Definition empty_stats : move_stats := {| playouts := 0; value := 0%Q |}.

Definition new_tree (b : board) (color : stone) : tree :=
  {| root := Build_tree_node pass empty_stats [];
     root_color := stone_other color;
     extra_komi := 0%Q |}.

Fixpoint child_at (c : coord_t) (l : list tree_node) : option tree_node :=
  match l with
  | [] => None
  | n :: l' =>
      match coord n, c with
      | pass, pass => Some n
      | resign, resign => Some n
      | at_point x, at_point y => if x =? y then Some n else child_at c l'
      | _, _ => child_at c l'
      end
  end.

Definition reroot (t : tree) (n : tree_node) : tree :=
  {| root := n; root_color := stone_other (root_color t);
     extra_komi := extra_komi t |}.

Definition promote_at (t : tree) (b : board) (c : coord_t) : option tree :=
  match child_at c (children (root t)) with
  | Some n => Some (reroot t n)
  | None => None
  end.

Definition merge (a b : tree) : tree :=
  {| root := Build_tree_node
               (coord (root a))
               {| playouts := playouts (node_u (root a))
                              + playouts (node_u (root b));
                  value := value (node_u (root a)) |}
               (children (root a));
     root_color := root_color a;
     extra_komi := extra_komi a |}.

(** The value as seen by the side to move at the given parity. *)
Definition node_value (t : tree) (parity : Z) (v : Q) : Q :=
  let black_parity :=
    match root_color t with S_WHITE => parity | _ => - parity end in
  if 0 <? black_parity then v else (1 - v)%Q.

(** Making the node that [ptr] leads to the root. *)
Definition promote_node (t : tree) (ptr : node_ptr) : tree :=
  match node_at (root t) ptr with
  | Some n => reroot t n
  | None => t
  end.

Definition record_games (n : Z) (ub : uct_board) : uct_board :=
  {| ub_t := ub_t ub;
     ub_ownermap :=
       {| om_playouts := om_playouts (ub_ownermap ub) + n;
          om_map := om_map (ub_ownermap ub) |} |}.

Definition visit (n : tree_node) (below : list tree_node) : tree_node :=
  Build_tree_node (coord n)
                  {| playouts := playouts (node_u n) + 1;
                     value := value (node_u n) |}
                  below.

(** The walk of one playout: through the root and its first child, each of
    which counts one playout more. *)
Definition walk (t : tree) : tree :=
  {| root := visit (root t)
                   (match children (root t) with
                    | [] => []
                    | n :: l => visit n (children n) :: l
                    end);
     root_color := root_color t;
     extra_komi := extra_komi t |}.

(** One playout: a walk in the tree, and one game more in the ownership
    map. *)
Definition one_playout (u : uct) (b : board) (color : stone) (ub : uct_board)
  : M (Z * uct_board) :=
  ret (1, record_games 1 (set_ub_t (walk (ub_t ub)) ub)).

Definition all_playouts (u : uct) (b : board) (color : stone) (ub : uct_board)
  : M (Z * uct_board) :=
  ret (games u, record_games (games u) ub).

(** The position of the most visited node of [l], the first of them when
    several are; [i] is the position of the head of [l] and [best] the
    position and visits of the best node met so far. *)
Fixpoint most_visited (l : list tree_node) (i : nat) (best : option (nat * Z))
  : option nat :=
  match l with
  | [] => option_map fst best
  | n :: l' =>
      match best with
      | None => most_visited l' (S i) (Some (i, playouts (node_u n)))
      | Some (_, m) =>
          if m <? playouts (node_u n)
          then most_visited l' (S i) (Some (i, playouts (node_u n)))
          else most_visited l' (S i) best
      end
  end.

Definition choose_child (pol : string) (r : tree_node) (b : board)
           (color : stone) : option node_ptr :=
  option_map (fun i => [i]) (most_visited (children r) 0 None).

Definition new_playout (name : string) (arg : option string) : playout_policy :=
  {| pp_data := name; pp_debug_level := 0 |}.

(** The counts of a point in the ownership map. *)
Definition counts (om : playout_ownermap) (c : Z) : Z * Z * Z :=
  nth (Z.to_nat c) (om_map om) (0, 0, 0).

(** A group is judged by the counts of its base point: unknown while no
    playout counts there, dead when white owns the point more often than
    black, alive otherwise. *)
Definition judge_group (b : board) (om : playout_ownermap) (thres : Q)
           (g : Z) : group_status :=
  let '(black, white, dame) := counts om g in
  if black + white + dame =? 0 then GS_UNKNOWN
  else if black <? white then GS_DEAD else GS_ALIVE.

(** A point belongs to the colour that owns it in at least the share
    [thres] of the playouts. *)
Definition judge_point (om : playout_ownermap) (c : coord_t) (thres : Q)
  : point_judgement :=
  let '(black, white, dame) := counts om (point_of c) in
  let needed := (thres * inject_Z (om_playouts om))%Q in
  if (0 <? dame) && Qle_bool needed (inject_Z dame) then PJ_DAME
  else if (0 <? black) && Qle_bool needed (inject_Z black) then PJ_BLACK
  else if (0 <? white) && Qle_bool needed (inject_Z white) then PJ_WHITE
  else PJ_UNKNOWN.

#[local] Instance collaborators : Collaborators := {|
  fl_lit := fun q => q;
  fl_ltb := ltb;
  fl_scale := fun x n => (x * inject_Z n)%Q;
  fl_to_int := to_int;
  atof := fun s => inject_Z (Libc.atoi s);
  fmt_f := print_fixed;
  UDEBUGL := debug_above;
  MAX_GAMELEN := 600;
  group_at := fun b c => nth (Z.to_nat c) (stones b) 0;
  stone2str := color_name;
  coord2sstr := coord_name;
  coord_x := fun c b => point_of c mod 9;
  coord_y := fun c b => point_of c / 9;
  pass_is_safe := fun b color mq => stone_eqb color S_BLACK;
  fast_srandom := fun s => s;
  fast_getseed := fun r => r;
  fast_random := fun n r => ((r * 75 + 74) mod n, (r * 75 + 74) mod 65537);
  tree_init := new_tree;
  tree_load := fun t b => t;
  tree_promote_at := promote_at;
  tree_promote_node := promote_node;
  tree_copy := fun t => t;
  tree_merge := merge;
  tree_normalize := fun t n => t;
  tree_node_get_value := node_value;
  tree_dump := fun t thres => [];
  uct_playout := one_playout;
  uct_playouts := all_playouts;
  uct_progress_status := fun u t color n => [];
  uct_get_extra_komi := fun u b => inject_Z (dynkomi u - moves b);
  policy_ucb1_init := fun u arg => "ucb1";
  policy_ucb1amaf_init := fun u arg => "ucb1amaf";
  choose := choose_child;
  playout_moggy_init := new_playout "moggy";
  playout_light_init := new_playout "light";
  playout_ownermap_judge_group := judge_group;
  playout_ownermap_judge_point := judge_point;
  uct_prior_init := fun arg => arg
|}.

(** A process that has written nothing yet. *)
Definition quiet : process := {| stderr := []; uct_halt := 0; rng := 1 |}.

(** Every worker finishes with 10 games, in spawning order. *)
Definition in_order : schedule :=
  fun ctxs k =>
    {| finish_thread := Z.of_nat k;
       done_games := 10;
       done_t := new_tree {| es := None; moves := 0;
                             last_move := {| m_coord := pass; m_color := S_NONE |};
                             superko_violation := false;
                             board_size2 := 0; stones := [] |} S_BLACK;
       seen_ownermap := {| om_playouts := 10; om_map := [] |} |}.

(** The engine configured by the argument string [arg] (the defaults when
    the parser refuses it). *)
Definition configured (arg : string) : uct :=
  match uct_state_init (Some arg) quiet with
  | (Returned u, _) => u
  | _ => uct_defaults
  end.

Definition engine_for (arg : string) : engine := {| data := configured arg |}.

Definition leaf (c : coord_t) (n : Z) (v : Q) : tree_node :=
  Build_tree_node c {| playouts := n; value := v |} [].

(** A tree after Black played point 40: White is to move, with replies at
    the points 30 and 50 and the pass examined. *)
Definition midgame_tree : tree :=
  {| root := Build_tree_node (at_point 40) {| playouts := 100; value := (1 # 2)%Q |}
               [ leaf (at_point 30) 60 (6 # 10)%Q;
                 leaf (at_point 50) 30 (3 # 10)%Q;
                 leaf pass 10 (1 # 10)%Q ];
     root_color := S_BLACK;
     extra_komi := 0%Q |}.

(** The same position when every reply loses: the most visited child
    leaves Black, who moved into it, with nine wins in ten. *)
Definition lost_tree : tree :=
  {| root := Build_tree_node (at_point 40) {| playouts := 100; value := (1 # 2)%Q |}
               [ leaf (at_point 30) 60 (9 # 10)%Q;
                 leaf (at_point 50) 40 (95 # 100)%Q ];
     root_color := S_BLACK;
     extra_komi := 0%Q |}.

(** A tree after White passed: Black is to move and wins with point 4. *)
Definition endgame_tree : tree :=
  {| root := Build_tree_node pass {| playouts := 100; value := (1 # 10)%Q |}
               [ leaf (at_point 4) 70 (9 # 10)%Q;
                 leaf pass 30 (8 # 10)%Q ];
     root_color := S_WHITE;
     extra_komi := 0%Q |}.

(** The midgame tree under a dynamic komi of seven and a half points. *)
Definition handicap_tree : tree := set_extra_komi (15 # 2)%Q midgame_tree.

Definition state_of (t : tree) (recorded : Z) : uct_board :=
  {| ub_t := t;
     ub_ownermap := {| om_playouts := recorded; om_map := [] |} |}.

Definition midgame_state (recorded : Z) : uct_board :=
  state_of midgame_tree recorded.

(** A 3x3 board after [n] moves, the last one being [last]. *)
Definition small_board (state : option uct_board) (n : Z) (last : move)
  : board :=
  {| es := state; moves := n; last_move := last;
     superko_violation := false; board_size2 := 9;
     stones := [0; 0; 0; 0; 0; 0; 0; 0; 0] |}.

(** The board at the end of a game, after a pass of White: a black group on
    the points 1 and 2, another on the point 4. *)
Definition final_board (state : option uct_board) : board :=
  {| es := state; moves := 40;
     last_move := {| m_coord := pass; m_color := S_WHITE |};
     superko_violation := false; board_size2 := 9;
     stones := [0; 1; 1; 0; 4; 0; 0; 0; 0] |}.

(** Its state after 500 playouts: White owns the points 1 and 2 most of the
    time, Black the point 4 in four playouts of five and the point 5 in
    seven of ten. *)
Definition counted_state : uct_board :=
  {| ub_t := endgame_tree;
     ub_ownermap :=
       {| om_playouts := 500;
          om_map := [ (0, 0, 0); (10, 490, 0); (10, 490, 0); (0, 0, 500);
                      (400, 100, 0); (350, 150, 0); (0, 0, 0); (0, 0, 0);
                      (0, 0, 0) ] |} |}.

Definition black_at (c : Z) : move := {| m_coord := at_point c; m_color := S_BLACK |}.
Definition white_at (c : Z) : move := {| m_coord := at_point c; m_color := S_WHITE |}.
Definition black_pass : move := {| m_coord := pass; m_color := S_BLACK |}.
Definition white_pass : move := {| m_coord := pass; m_color := S_WHITE |}.
Definition black_resigns : move := {| m_coord := resign; m_color := S_BLACK |}.

End Sample.

(** ** Notions used in the statements

    The texts the engine writes, the options of a configuration string and
    what makes one invalid, and the claims of the specification that the
    code does not bear out, stated as they are made. *)

Section Notions.

Context `{Collaborators}.

Import Libc.

(** *** What the engine writes *)

Definition fatal_line (color root_color : stone) : string :=
  "Fatal: Non-alternating play detected "
    ++ fmt_d (stone_num color) ++ " " ++ fmt_d (stone_num root_color) ++ nl.

Definition failed (expr : string) (p : process) : process :=
  put_stderr ["Assertion failed: " ++ expr] p.

Definition promote_warning : string :=
  "Warning: Cannot promote move node! " ++ "Several play commands in row?"
    ++ nl.

(** What [uct_genmove] writes about the chosen node before it decides. *)
Definition winner_report (u : uct) (b : board) (t : tree) (color : stone)
           (played_games : Z) (best : tree_node) : list string :=
  ((if UDEBUGL u 0 then uct_progress_status u t color played_games else [])
     ++ (if UDEBUGL u 1 then [winner_line u b t best played_games] else []))%list.

Definition pass_line : string := "<Will rather pass, looks safe enough.>" ++ nl.

Definition only_one_line : string :=
  "uct: Only one of random_policy and random_policy_chance is set" ++ nl.

(** *** Observed moves *)

(** The state [uct_notify_play] works on: the one kept in the board, or a
    fresh one. *)
Definition ensure_state (e : engine) (b : board) (m : move) : M board :=
  match es b with
  | None => prepare_move e b (m_color m)
  | Some _ => ret b
  end.

(** *** The halt flag *)

(** The number of joined workers from which the driver raises [uct_halt]. *)
Definition halt_threshold (u : uct) : Z := Z.max 1 (threads u / 2).

Definition halt_value (u : uct) (joined : Z) : Z :=
  if halt_threshold u <=? joined then 1 else 0.

(** *** The configuration *)

(** A C string ends at its first NUL. *)
Fixpoint cstr (s : string) : string :=
  match s with
  | EmptyString => EmptyString
  | String c s' => if code c =? 0 then EmptyString else String c (cstr s')
  end.

Fixpoint nul_free (s : string) : bool :=
  match s with
  | EmptyString => true
  | String c s' => negb (code c =? 0) && nul_free s'
  end.

(** The items of a configuration string: the texts between its commas (a
    comma at the very end starts no item). *)
Fixpoint optspecs (s : string) : list string :=
  match s with
  | EmptyString => []
  | String c s' =>
      if Ascii.eqb c "," then EmptyString :: optspecs s'
      else match optspecs s' with
           | [] => [String c EmptyString]
           | item :: items => String c item :: items
           end
  end.

(** An item is a key, with a value when it has an equals sign. *)
Definition option_of (optspec : string) : string * option string :=
  cut "=" optspec.

(** [banner=text] ends the options: the text runs to the end of the string,
    commas included. *)
Definition is_banner (o : string * option string) : bool :=
  eq_nocase (fst o) "banner" && has (snd o).

Fixpoint upto_banner (l : list (string * option string))
  : list (string * option string) :=
  match l with
  | [] => []
  | o :: l' => if is_banner o then [o] else o :: upto_banner l'
  end.

(** The options of a configuration string. *)
Definition config_options (arg : string) : list (string * option string) :=
  upto_banner (map option_of (optspecs arg)).

(** The keys that need a value, and those that may stand alone. *)
Definition keys_with_value : list string :=
  [ "games"; "gamelen"; "expand_p"; "dumpthres"; "playout_amaf_cutoff";
    "policy"; "random_policy"; "playout"; "prior"; "amaf_prior"; "threads";
    "thread_model"; "force_seed"; "dynkomi_mask"; "val_scale"; "val_points";
    "root_heuristic"; "random_policy_chance"; "banner" ].

Definition keys_alone : list string :=
  [ "debug"; "playout_amaf"; "playout_amaf_nakade"; "no_book"; "dynkomi";
    "val_extra"; "pass_all_alive" ].

Definition among (keys : list string) (name : string) : bool :=
  existsb (eq_nocase name) keys.

Definition unrecognized (o : string * option string) : bool :=
  negb (among keys_with_value (fst o)) && negb (among keys_alone (fst o)).

Definition missing_value (o : string * option string) : bool :=
  among keys_with_value (fst o) && negb (has (snd o)).

(** The value of policy, random_policy and playout names the policy before
    a colon; thread_model takes the value whole. *)
Definition invalid_value (o : string * option string) : bool :=
  match snd o with
  | None => false
  | Some v =>
      (among ["policy"; "random_policy"] (fst o)
       && negb (among ["ucb1"; "ucb1amaf"] (fst (cut ":" v))))
      || (among ["playout"] (fst o)
          && negb (among ["moggy"; "light"] (fst (cut ":" v))))
      || (among ["thread_model"] (fst o) && negb (among ["none"; "root"] v))
  end.

Definition invalid_option (o : string * option string) : bool :=
  unrecognized o || missing_value o || invalid_value o.

(** The settings an option leaves. *)
Definition settings (r : parsed) : uct :=
  match r with Continue u => u | Break u => u end.

(** What the parser writes before it ends the process on an invalid
    option: the policy, playout or thread model the value names, or else the
    key. *)
Definition diagnostic (o : string * option string) : string :=
  let v := text (snd o) in
  if among ["policy"; "random_policy"] (fst o) && has (snd o) then
    "UCT: Invalid tree policy " ++ fst (cut ":" v) ++ nl
  else if among ["playout"] (fst o) && has (snd o) then
    "UCT: Invalid playout policy " ++ fst (cut ":" v) ++ nl
  else if among ["thread_model"] (fst o) && has (snd o) then
    "UCT: Invalid thread model " ++ v ++ nl
  else
    "uct: Invalid engine argument " ++ fst o ++ " or missing value" ++ nl.

(** The first invalid option of a configuration string, if there is one. *)
Definition first_invalid (arg : string) : option (string * option string) :=
  find invalid_option (config_options arg).

(** *** The fallback policy, as the options give it

    The policy for random descents is set by an option random_policy with a
    value.  Its chance is the number the last option random_policy_chance
    gives, as [atoi] reads it, and 0 without such an option; the chance is
    set when that number is not 0. *)
Definition gives_random_policy (o : string * option string) : bool :=
  eq_nocase (fst o) "random_policy" && has (snd o).

Definition gives_chance (o : string * option string) : bool :=
  eq_nocase (fst o) "random_policy_chance" && has (snd o).

Definition random_policy_given (opts : list (string * option string)) : bool :=
  existsb gives_random_policy opts.

Definition chance_given (start : Z) (opts : list (string * option string))
  : Z :=
  fold_left (fun z o => if gives_chance o then atoi (text (snd o)) else z)
            opts start.

Definition exactly_one_given (arg : string) : bool :=
  xorb (nonzero (chance_given 0 (config_options arg)))
       (random_policy_given (config_options arg)).

(** *** The playouts before a pass *)

(** [n] playouts in a row on the state [ub] of the board [b]. *)
Fixpoint playouts_run (n : nat) (u : uct) (b : board) (color : stone)
         (ub : uct_board) : M uct_board :=
  match n with
  | O => ret ub
  | S n' =>
      '(_, ub') <- uct_playout u (set_es (Some ub) b) color ub ;;
      playouts_run n' u b color ub'
  end.

(** [n] playouts are what it takes to have GJ_MINGAMES of them in the
    ownership map: they all return, fewer leave the map short of it, and
    after the [n]-th, which leaves the state [ub'], it is reached. *)
Definition minimum_reached_after (n : nat) (u : uct) (b : board)
           (color : stone) (ub : uct_board) (p : process)
           (ub' : uct_board) (p' : process) : Prop :=
  playouts_run n u b color ub p = (Returned ub', p')
  /\ GJ_MINGAMES <= om_playouts (ub_ownermap ub')
  /\ forall i, (i < n)%nat ->
       exists ub_i p_i,
         playouts_run i u b color ub p = (Returned ub_i, p_i)
         /\ om_playouts (ub_ownermap ub_i) < GJ_MINGAMES.

(** *** Preparing a move *)

(** [u->dynkomi && u->dynkomi > b->moves && (color & u->dynkomi_mask)]. *)
Definition dynkomi_applies (u : uct) (b : board) (color : stone) : bool :=
  negb (dynkomi u =? 0) && (moves b <? dynkomi u)
  && negb (Z.land (stone_num color) (dynkomi_mask u) =? 0).

(** The ownership map as [prepare_move] leaves it. *)
Definition cleared_ownermap (b : board) : playout_ownermap :=
  {| om_playouts := 0;
     om_map := repeat (0, 0, 0) (Z.to_nat (board_size2 b)) |}.

(** The tree of a fresh state, before the dynamic komi is set. *)
Definition fresh_tree (u : uct) (b : board) (color : stone) : tree :=
  if negb (no_book u) && (moves b =? 0)
  then tree_load (tree_init b color) b
  else tree_init b color.

(** The tree [prepare_move] works on: the one kept, or a fresh one. *)
Definition tree_in_hand (u : uct) (b : board) (color : stone) : tree :=
  match es b with
  | Some ub => ub_t ub
  | None => fresh_tree u b color
  end.

(** The generator as [prepare_move] leaves it when it builds a state. *)
Definition seeded (u : uct) (r : prng) : prng :=
  if force_seed u =? 0 then r else fast_srandom (force_seed u).

Definition fresh_line (r : prng) : string :=
  "Fresh board with random seed " ++ fmt_d (fast_getseed r) ++ nl.

(** *** Dead groups *)

(** Point [c] is the point that names its group. *)
Definition group_base (b : board) (c : Z) : bool :=
  negb (group_at b c =? 0) && (group_at b c =? c).

(** The judgement of the groups from the ownership map of [ub]. *)
Definition judged (b : board) (ub : uct_board) : Z -> group_status :=
  playout_ownermap_judge_group b (ub_ownermap ub) GJ_THRES.

Definition is_dead (s : group_status) : bool :=
  match s with GS_DEAD => true | _ => false end.

Definition is_unjudged (s : group_status) : bool :=
  match s with GS_NONE => true | _ => false end.

(** The groups of the board that are judged dead, in point order. *)
Definition dead_groups (b : board) (ub : uct_board) : move_queue :=
  map at_point
      (filter (fun c => group_base b c && is_dead (judged b ub c))
              (board_points b)).

(** Some group of the board has no judgement. *)
Definition unjudged_group (b : board) (ub : uct_board) : bool :=
  existsb (fun c => group_base b c && is_unjudged (judged b ub c))
          (board_points b).

Definition unjudged_line : string := "gj.gs[g] != GS_NONE".

(** *** What the driver gathers *)





(** [n] draws of [fast_random(65536)] from the state [r]. *)
Fixpoint draws (n : nat) (r : prng) : list Z * prng :=
  match n with
  | O => ([], r)
  | S n' =>
      let '(x, r') := fast_random 65536 r in
      let '(xs, r'') := draws n' r' in
      (x :: xs, r'')
  end.

(** *** The chat command and the print hook *)

(** Every character of [s] is one of [accept]. *)
Fixpoint all_in (accept : string) (s : string) : bool :=
  match s with
  | EmptyString => true
  | String c s' => mem c accept && all_in accept s'
  end.

(** The character the print hook writes for a point, from its judgement at
    the threshold GJ_THRES and at the relaxed threshold. *)
Definition ownership_mark (sure relaxed : point_judgement) : ascii :=
  match sure with
  | PJ_DAME => ":"
  | PJ_BLACK => "X"
  | PJ_WHITE => "O"
  | PJ_UNKNOWN =>
      match relaxed with
      | PJ_DAME => ":"
      | PJ_BLACK => "x"
      | PJ_WHITE => "o"
      | PJ_UNKNOWN => ","
      end
  end%char.

(** *** The winrate reply *)




(** *** Claims of the specification that the code does not bear out *)

(** C1 as the specification has it: the flag is up exactly once half of the
    workers, rounded up, are joined. *)
Definition halt_at_ceiling : Prop :=
  forall (rounds : nat) (sched : schedule) (u : uct) (b : board)
         (color : stone) (ub : uct_board) (p : process),
    1 <= threads u ->
    (rounds <= Z.to_nat (threads u))%nat ->
    exists d p',
      root_driver rounds sched u b color ub p = (Returned d, p')
      /\ (uct_halt p' = 1 <-> (threads u + 1) / 2 <= Z.of_nat rounds).

(** C2 as the specification has it: a move that does not alternate ends the
    process, for [uct_notify_play] as for [uct_genmove]. *)
Definition non_alternating_is_fatal : Prop :=
  (forall (e : engine) (b : board) (m : move) (ub : uct_board) (p : process),
      es b = Some ub ->
      m_color m <> stone_other (root_color (ub_t ub)) ->
      forall b' p', uct_notify_play e b m p <> (Returned b', p'))
  /\ (forall (sched : schedule) (fuel : nat) (e : engine) (b : board)
             (color : stone) (ub : uct_board) (p : process),
         es b = Some ub ->
         color <> stone_other (root_color (ub_t ub)) ->
         forall r p', uct_genmove sched fuel e b color p <> (Returned r, p')).

(** C6 as the specification has it, for a promotion that fails: the engine
    warns and destroys the per-game state. *)
Definition failed_promotion_warns : Prop :=
  forall (e : engine) (b : board) (m : move) (ub : uct_board) (p : process),
    es b = Some ub ->
    is_resign (m_coord m) = false ->
    tree_promote_at (ub_t ub) b (m_coord m) = None ->
    exists b',
      uct_notify_play e b m p = (Returned b', put_stderr [promote_warning] p)
      /\ es b' = None.


End Notions.

(** ** Properties *)

Section Properties.

Context `{Collaborators}.

Import Libc.

(** *** The process monad *)

Lemma bind_returned {A B : Type} (c : M A) (k : A -> M B) p a p' :
  c p = (Returned a, p') -> bind c k p = k a p'.
Proof. intros E. unfold bind. now rewrite E. Qed.

Lemma bind_exited {A B : Type} (c : M A) (k : A -> M B) p n p' :
  c p = (Exited n, p') -> bind c k p = (Exited n, p').
Proof. intros E. unfold bind. now rewrite E. Qed.

Lemma bind_aborted {A B : Type} (c : M A) (k : A -> M B) p e p' :
  c p = (Aborted e, p') -> bind c k p = (Aborted e, p').
Proof. intros E. unfold bind. now rewrite E. Qed.

Lemma bind_ret {A B : Type} (a : A) (k : A -> M B) p :
  bind (ret a) k p = k a p.
Proof. reflexivity. Qed.

Lemma when_true (k : M unit) : when true k = k.
Proof. reflexivity. Qed.

Lemma when_false (k : M unit) p : when false k p = (Returned tt, p).
Proof. reflexivity. Qed.

Lemma put_stderr_nil p : put_stderr [] p = p.
Proof. destruct p. unfold put_stderr. cbn. now rewrite app_nil_r. Qed.

Lemma stone_eqb_eq a b : stone_eqb a b = true <-> a = b.
Proof. destruct a, b; cbn; split; congruence. Qed.

Lemma stone_eqb_neq a b : stone_eqb a b = false <-> a <> b.
Proof. destruct a, b; cbn; split; congruence. Qed.

(** *** Judging a pass *)

(** C5. [uct_pass_is_safe] answers true only when the ownership map holds at
    least GJ_MINGAMES = 500 playouts; with fewer it answers false at once:
    nothing is written, no assertion of the dead-group listing can fire, and
    the answer is the same whatever the group judgement would say. *)
Theorem uct_pass_is_safe_needs_games (u : uct) (b : board) (color : stone)
        (ub : uct_board) (p : process) :
  es b = Some ub ->
  (om_playouts (ub_ownermap ub) < 500 ->
   uct_pass_is_safe u b color p = (Returned false, p))
  /\ (forall p', uct_pass_is_safe u b color p = (Returned true, p') ->
                 500 <= om_playouts (ub_ownermap ub)).
Proof.
  intros Hes. unfold uct_pass_is_safe, GJ_MINGAMES. rewrite Hes.
  destruct (om_playouts (ub_ownermap ub) <? 500) eqn:E.
  - apply Z.ltb_lt in E. split; [reflexivity | intros p' Hr; discriminate Hr].
  - apply Z.ltb_ge in E. split; [lia | intros; lia].
Qed.

(** *** Without per-game state *)

Lemma strncasecmp_winrate : strncasecmp "winrate" "winrate" 7 = 0.
Proof. reflexivity. Qed.

(** C10. On a board without per-game state the ownership print hook leaves
    the stream as it is, for every point, and the chat command winrate
    (in any letter case, after any blanks) is answered by the fixed text. *)
Theorem no_state_no_report (e : engine) (b : board) :
  es b = None ->
  (forall c f, uct_printhook_ownermap b c f = f)
  /\ uct_chat e b "winrate" = Some "no game context (yet?)"
  /\ (forall cmd, strncasecmp (skip_span chat_blanks cmd) "winrate" 7 = 0 ->
                  uct_chat e b cmd = Some "no game context (yet?)").
Proof.
  intros Hes. repeat split.
  - intros c f. unfold uct_printhook_ownermap. now rewrite Hes.
  - unfold uct_chat. cbn. now rewrite Hes.
  - intros cmd Hcmd. unfold uct_chat. rewrite Hcmd. cbn. now rewrite Hes.
Qed.

(** *** Preparing a move *)

(** With state kept from the previous move, [prepare_move] ends the process
    when the colour does not alternate. *)
Lemma prepare_move_non_alternating (e : engine) (b : board) (color : stone)
      (ub : uct_board) (p : process) :
  es b = Some ub ->
  color <> stone_other (root_color (ub_t ub)) ->
  prepare_move e b color p =
    if moves b =? 0
    then (Aborted "ub->t && b->moves", failed "ub->t && b->moves" p)
    else (Exited 1, put_stderr [fatal_line color (root_color (ub_t ub))] p).
Proof.
  intros Hes Hc. apply stone_eqb_neq in Hc.
  unfold prepare_move. rewrite Hes. unfold bind at 1. unfold bind at 1.
  unfold assert. destruct (moves b =? 0); cbn; [reflexivity|].
  rewrite Hc. cbn. reflexivity.
Qed.

(** Without state, [prepare_move] builds one, unless the opening book is to
    be loaded for a first move that is not Black's. *)
Lemma prepare_move_fresh (e : engine) (b : board) (color : stone)
      (p : process) :
  es b = None ->
  no_book (data e) = true \/ moves b <> 0 \/ color = S_BLACK ->
  exists ub p',
    prepare_move e b color p = (Returned (set_es (Some ub) b), p').
Proof.
  intros Hes Hok. unfold prepare_move. rewrite Hes.
  unfold bind, when, assert, ret, set_rng, get_rng, fprintf_stderr.
  destruct (negb (force_seed (data e) =? 0));
    destruct (UDEBUGL (data e) 0);
    destruct (negb (no_book (data e)) && (moves b =? 0)) eqn:Ebook;
    try (eexists; eexists; reflexivity).
  all: apply andb_prop in Ebook; destruct Ebook as [Eb Em];
    apply negb_true_iff in Eb; apply Z.eqb_eq in Em;
    destruct Hok as [Hb | [Hm | Hc]]; [congruence | congruence |];
    subst color; cbn; eexists; eexists; reflexivity.
Qed.

(** *** Observed moves *)

(** C6, as the code has it.  Whenever [uct_notify_play] gets past the
    creation of missing state (it always does when state exists, when the
    book is off, after the first move, or for a Black move), it returns, and:
    a RESIGN destroys the per-game state; otherwise a failed promotion
    destroys the state too, the warning being written only when the debug
    level test UDEBUGL(0) holds; and a successful promotion keeps the state,
    with the promoted tree. *)
Theorem notify_play_outcome (e : engine) (b : board) (m : move) (p : process) :
  es b <> None \/ no_book (data e) = true \/ moves b <> 0
    \/ m_color m = S_BLACK ->
  exists b1 ub1 p1,
    ensure_state e b m p = (Returned b1, p1)
    /\ es b1 = Some ub1
    /\ (es b <> None -> b1 = b /\ p1 = p)
    /\ (is_resign (m_coord m) = true ->
        uct_notify_play e b m p = (Returned (set_es None b1), p1))
    /\ (is_resign (m_coord m) = false ->
        tree_promote_at (ub_t ub1) b1 (m_coord m) = None ->
        uct_notify_play e b m p =
          (Returned (set_es None b1),
           if UDEBUGL (data e) 0 then put_stderr [promote_warning] p1 else p1))
    /\ (is_resign (m_coord m) = false ->
        forall t', tree_promote_at (ub_t ub1) b1 (m_coord m) = Some t' ->
        uct_notify_play e b m p =
          (Returned (set_es (Some (set_ub_t t' ub1)) b1), p1)).
Proof.
  intros Hok.
  assert (Hfirst : exists b1 ub1 p1,
             ensure_state e b m p = (Returned b1, p1) /\ es b1 = Some ub1
             /\ (es b <> None -> b1 = b /\ p1 = p)).
  { unfold ensure_state. destruct (es b) as [ub|] eqn:Hes.
    - exists b, ub, p. repeat split; auto.
    - destruct (prepare_move_fresh e b (m_color m) p Hes) as (ub & p' & Hp).
      + destruct Hok as [Hn | Hrest]; [congruence | exact Hrest].
      + exists (set_es (Some ub) b), ub, p'. repeat split; auto; congruence. }
  destruct Hfirst as (b1 & ub1 & p1 & Hfirst & Hes1 & Hsame).
  exists b1, ub1, p1. split; [exact Hfirst|]. split; [exact Hes1|].
  split; [exact Hsame|].
  assert (Hstep : forall k : board -> M board,
             bind (ensure_state e b m) k p = k b1 p1).
  { intros k. now apply bind_returned. }
  unfold uct_notify_play. fold (ensure_state e b m). rewrite Hstep, Hes1.
  repeat split.
  - intros Hr. rewrite Hr. unfold uct_done_board_state. now rewrite Hes1.
  - intros Hr Hpro. rewrite Hr, Hpro.
    unfold uct_done_board_state. rewrite Hes1.
    destruct (UDEBUGL (data e) 0); reflexivity.
  - intros Hr t' Hpro. now rewrite Hr, Hpro.
Qed.

(** *** Non-alternating play *)

(** C2, as the code has it.  When [uct_genmove] is called for a board that
    has per-game state and the colour is not the opponent of the tree's
    [root_color], the process ends with a diagnostic on stderr: by [exit(1)]
    after the line Fatal: Non-alternating play detected, or, on a board
    with no move played, by the assertion that guards against stale state.
    ([uct_notify_play] makes no such check when state exists.) *)
Theorem genmove_non_alternating (sched : schedule) (fuel : nat) (e : engine)
        (b : board) (color : stone) (ub : uct_board) (p : process) :
  es b = Some ub ->
  color <> stone_other (root_color (ub_t ub)) ->
  let p0 := if superko_violation b then put_stderr superko_warning p else p in
  uct_genmove sched fuel e b color p =
    if moves b =? 0
    then (Aborted "ub->t && b->moves", failed "ub->t && b->moves" p0)
    else (Exited 1, put_stderr [fatal_line color (root_color (ub_t ub))] p0).
Proof.
  intros Hes Hc p0.
  assert (Hprep : forall b0, es b0 = Some ub -> moves b0 = moves b ->
            prepare_move e b0 color p0 =
              if moves b =? 0
              then (Aborted "ub->t && b->moves", failed "ub->t && b->moves" p0)
              else (Exited 1,
                    put_stderr [fatal_line color (root_color (ub_t ub))] p0)).
  { intros b0 Hb0 Hm. rewrite <- Hm.
    now apply prepare_move_non_alternating. }
  unfold uct_genmove, genmove_search.
  destruct (superko_violation b) eqn:Hsk.
  - unfold bind at 1. unfold bind at 1. unfold bind at 1.
    cbn [stderr_lines ret]. unfold bind at 1.
    change (put_stderr superko_warning p) with p0.
    rewrite (Hprep (set_superko_violation false b)); [|exact Hes|reflexivity].
    destruct (moves b =? 0); reflexivity.
  - unfold bind at 1. unfold bind at 1. unfold bind at 1.
    cbn [ret]. change p with p0 at 1.
    rewrite (Hprep b Hes eq_refl).
    destruct (moves b =? 0); reflexivity.
Qed.

(** *** The halt flag of the root-parallel driver *)

Lemma spawn_threads_returns n ti u b color t p :
  exists ctxs p',
    spawn_threads n ti u b color t p = (Returned ctxs, p')
    /\ uct_halt p' = uct_halt p.
Proof.
  revert ti p. induction n as [|n IH]; intros ti p.
  - exists [], p. split; reflexivity.
  - cbn [spawn_threads]. unfold bind at 1. unfold get_rng at 1.
    destruct (fast_random 65536 (rng p)) as [x r'].
    unfold bind at 1. unfold set_rng at 1. unfold bind at 1.
    set (p1 := {| stderr := stderr p; uct_halt := uct_halt p; rng := r' |}).
    assert (Hw : exists p2,
               when (UDEBUGL u 2)
                    (fprintf_stderr ("Spawned thread " ++ fmt_d ti ++ nl)) p1
               = (Returned tt, p2) /\ uct_halt p2 = uct_halt p).
    { destruct (UDEBUGL u 2); cbn; eexists; split; reflexivity. }
    destruct Hw as (p2 & Hw & Hh2). rewrite Hw.
    destruct (IH (ti + 1) p2) as (ctxs & p3 & Hs & Hh3).
    unfold bind at 1. rewrite Hs. cbn [ret].
    eexists; eexists; split; [reflexivity | congruence].
Qed.

Lemma collect_one_returns u finished d p :
  exists p',
    collect_one u finished d p =
      (Returned {| played_games :=
                     played_games d
                     + done_games (finished (Z.to_nat (joined d)));
                   joined := joined d + 1;
                   master :=
                     tree_merge (master d)
                                (done_t (finished (Z.to_nat (joined d))));
                   shared_map :=
                     seen_ownermap (finished (Z.to_nat (joined d))) |}, p')
    /\ uct_halt p' =
         if Z.quot (threads u) 2 <=? joined d + 1 then 1 else uct_halt p.
Proof.
  unfold collect_one. cbn [joined].
  destruct (UDEBUGL u 2);
    destruct (Z.quot (threads u) 2 <=? joined d + 1);
    cbn; eexists; split; reflexivity.
Qed.

(** The collecting loop: after [k] more rounds, [k] more workers are joined
    and the flag is up exactly from the threshold on. *)
Lemma collect_halt u finished :
  1 <= threads u ->
  forall k d p,
    0 <= joined d ->
    joined d + Z.of_nat k <= threads u ->
    uct_halt p = halt_value u (joined d) ->
    exists d' p',
      collect k u finished d p = (Returned d', p')
      /\ joined d' = joined d + Z.of_nat k
      /\ uct_halt p' = halt_value u (joined d').
Proof.
  intros HN. induction k as [|k IH]; intros d p Hj Hle Hh.
  - exists d, p. cbn. repeat split; [lia | exact Hh].
  - cbn [collect].
    assert (Hlt : (joined d <? threads u) = true) by (apply Z.ltb_lt; lia).
    rewrite Hlt.
    destruct (collect_one_returns u finished d p) as (p1 & Hone & Hh1).
    unfold bind at 1. rewrite Hone.
    match type of Hone with _ = (Returned ?x, _) => set (d1 := x) in * end.
    destruct (IH d1 p1) as (d' & p' & Hc & Hj' & Hh').
    + cbn. lia.
    + cbn. lia.
    + rewrite Hh1, Hh. cbn [joined d1]. unfold halt_value, halt_threshold.
      rewrite Z.quot_div_nonneg by lia.
      destruct (threads u / 2 <=? joined d + 1) eqn:E1;
        destruct (Z.max 1 (threads u / 2) <=? joined d + 1) eqn:E2;
        destruct (Z.max 1 (threads u / 2) <=? joined d) eqn:E3;
        try reflexivity;
        rewrite ?Z.leb_le, ?Z.leb_gt in *; lia.
    + exists d', p'. split; [exact Hc|]. split; [|exact Hh'].
      rewrite Hj'. cbn. lia.
Qed.

(** The driver after [rounds] rounds of its collecting loop. *)
Lemma root_driver_rounds (rounds : nat) (sched : schedule) (u : uct)
      (b : board) (color : stone) (ub : uct_board) (p : process) :
  1 <= threads u ->
  (rounds <= Z.to_nat (threads u))%nat ->
  exists d p',
    root_driver rounds sched u b color ub p = (Returned d, p')
    /\ joined d = Z.of_nat rounds
    /\ uct_halt p' = halt_value u (Z.of_nat rounds).
Proof.
  intros HN Hr. unfold root_driver.
  assert (Hpos : (0 <? threads u) = true) by (apply Z.ltb_lt; lia).
  rewrite Hpos. unfold bind at 1. cbn [assert]. unfold bind at 1.
  cbn [set_uct_halt].
  set (p0 := {| stderr := stderr p; uct_halt := 0; rng := rng p |}).
  destruct (spawn_threads_returns (Z.to_nat (threads u)) 0 u b color
                                  (ub_t ub) p0) as (ctxs & p1 & Hs & Hh1).
  unfold bind at 1. rewrite Hs.
  set (d0 := {| played_games := 0; joined := 0; master := ub_t ub;
                shared_map := ub_ownermap ub |}).
  destruct (collect_halt u (sched ctxs) HN rounds d0 p1)
    as (d & p' & Hc & Hj & Hh).
  - cbn. lia.
  - cbn. lia.
  - rewrite Hh1. cbn [uct_halt p0 joined d0]. unfold halt_value, halt_threshold.
    destruct (Z.max 1 (threads u / 2) <=? 0) eqn:E; [|reflexivity].
    apply Z.leb_le in E. lia.
  - exists d, p'. split; [exact Hc|]. cbn [joined d0] in Hj.
    split; [lia|]. rewrite Hh, Hj. reflexivity.
Qed.

(** C1, as the code has it.  In the ROOT thread model with N >= 1 workers,
    the driver clears [uct_halt] and then, round after round of the
    collecting loop, joins one worker; after [rounds] rounds exactly
    [rounds] workers are joined, and the flag is 1 if at least
    max(1, N div 2) workers are joined and 0 otherwise: it goes up as soon
    as that many are joined and never before. *)
Theorem root_driver_halt (rounds : nat) (sched : schedule) (u : uct)
        (b : board) (color : stone) (ub : uct_board) (p : process) :
  1 <= threads u ->
  (rounds <= Z.to_nat (threads u))%nat ->
  exists d p',
    root_driver rounds sched u b color ub p = (Returned d, p')
    /\ joined d = Z.of_nat rounds
    /\ uct_halt p' = (if Z.max 1 (threads u / 2) <=? Z.of_nat rounds
                      then 1 else 0).
Proof.
  intros HN Hr. exact (root_driver_rounds rounds sched u b color ub p HN Hr).
Qed.

(** The whole driver: [u->threads] rounds join every worker, so the loop of
    [uct_threaded_playouts] is run to its end, with the flag up. *)
Lemma root_driver_joins_all (sched : schedule) (u : uct) (b : board)
      (color : stone) (ub : uct_board) (p : process) :
  1 <= threads u ->
  exists d p',
    root_driver (Z.to_nat (threads u)) sched u b color ub p = (Returned d, p')
    /\ joined d = threads u /\ uct_halt p' = 1.
Proof.
  intros HN.
  destruct (root_driver_rounds (Z.to_nat (threads u)) sched u b color ub p HN
                               (le_n _)) as (d & p' & Hd & Hj & Hh).
  exists d, p'. split; [exact Hd|]. split; [lia|].
  rewrite Hh. unfold halt_value, halt_threshold. rewrite Z2Nat.id by lia.
  destruct (Z.max 1 (threads u / 2) <=? threads u) eqn:E; [reflexivity|].
  apply Z.leb_gt in E.
  assert (threads u / 2 <= threads u) by (apply Z.div_le_upper_bound; lia).
  lia.
Qed.

(** *** Move generation: resigning and passing *)

Lemma put_stderr_app l1 l2 p :
  put_stderr l2 (put_stderr l1 p) = put_stderr (l1 ++ l2)%list p.
Proof. unfold put_stderr. cbn. now rewrite app_assoc. Qed.

Lemma announce_winner {A : Type} (c0 c1 : bool) (l : list string)
      (line : tree_node -> string) (t : tree) (best : node_ptr)
      (chosen : tree_node) (k : tree_node -> M A) (p : process) :
  node_at (root t) best = Some chosen ->
  (when c0 (stderr_lines l) ;;
   n <- deref t best ;;
   when c1 (fprintf_stderr (line n)) ;;
   k n) p =
    k chosen
      (put_stderr ((if c0 then l else [])
                     ++ (if c1 then [line chosen] else []))%list p).
Proof.
  intros Hn. unfold deref. rewrite Hn.
  destruct c0, c1; unfold bind, when, stderr_lines, fprintf_stderr, ret.
  - now rewrite put_stderr_app.
  - now rewrite app_nil_r.
  - reflexivity.
  - cbn [app]. now rewrite put_stderr_nil.
Qed.

(** *** Pointers into the tree *)

Lemma nth_error_at_index {A : Type} (f : A -> A) (l : list A) :
  forall i, nth_error (at_index i f l) i = option_map f (nth_error l i).
Proof.
  induction l as [|x l IH]; intros [|i]; cbn; try reflexivity. apply IH.
Qed.

(** What is written through a pointer is read back through it. *)
Lemma node_at_store (c : coord_t) (ptr : node_ptr) :
  forall n n',
    node_at n ptr = Some n' ->
    node_at (store_coord c n ptr) ptr = Some (set_coord c n').
Proof.
  induction ptr as [|i rest IH]; intros n n' Hn; cbn [node_at store_coord] in *.
  - inversion Hn; subst. reflexivity.
  - cbn [children]. rewrite nth_error_at_index.
    destruct (nth_error (children n) i) as [child|]; [|discriminate Hn].
    cbn [option_map]. now apply IH.
Qed.

(** [prepare_move] touches nothing of the board but its engine state. *)
Lemma prepare_move_shape (e : engine) (b : board) (color : stone) p b1 p1 :
  prepare_move e b color p = (Returned b1, p1) ->
  exists ub, b1 = set_es (Some ub) b.
Proof.
  unfold prepare_move. unfold bind at 1.
  match goal with
  | |- context [match ?c p with _ => _ end] => destruct (c p) as [[ub| | |] p']
  end; cbn [ret]; intros E; inversion E; subst.
  eexists; reflexivity.
Qed.

(** The search leaves the moves of the board alone and returns with
    per-game state in place. *)
Lemma genmove_search_board (sched : schedule) (e : engine) (b : board)
      (color : stone) p pg b1 p1 :
  genmove_search sched e b color p = (Returned (pg, b1), p1) ->
  moves b1 = moves b /\ last_move b1 = last_move b
  /\ exists ub, es b1 = Some ub.
Proof.
  unfold genmove_search. unfold bind at 1.
  set (first := if superko_violation b then _ else _).
  assert (Hfirst : exists p0 b0, first p = (Returned b0, p0)
                                 /\ moves b0 = moves b
                                 /\ last_move b0 = last_move b).
  { subst first. destruct (superko_violation b).
    - eexists; eexists; split; [reflexivity | split; reflexivity].
    - eexists; eexists; split; [reflexivity | split; reflexivity]. }
  destruct Hfirst as (p0 & b0 & Hf & Hm & Hl). rewrite Hf.
  unfold bind at 1.
  destruct (prepare_move e b0 color p0) as [[b2| | |] p2] eqn:Hprep;
    try discriminate.
  destruct (prepare_move_shape _ _ _ _ _ _ Hprep) as (ub & ->).
  cbn [es set_es]. unfold bind at 1.
  destruct (uct_threaded_playouts sched (data e) (set_es (Some ub) b0) color
                                  ub p2) as [[[g ub2]| | |] p3];
    try discriminate.
  unfold bind at 1.
  destruct (UDEBUGL (data e) 2); cbn; intros E; inversion E; subst; cbn;
    (split; [exact Hm | split; [exact Hl | eexists; reflexivity]]).
Qed.

(** The loop runs the playouts one after the other and stops after the
    first that brings the ownership map to GJ_MINGAMES playouts. *)
Lemma enough_playouts_runs u b color :
  forall n ub p ub' p',
    minimum_reached_after n u b color ub p ub' p' ->
    forall fuel, (n <= fuel)%nat ->
                 enough_playouts fuel u b color ub p = (Returned ub', p').
Proof.
  unfold minimum_reached_after.
  induction n as [|n IH]; intros ub p ub' p' (Hrun & Hmin & Hless) fuel Hfuel.
  - cbn [playouts_run] in Hrun. inversion Hrun; subst.
    apply Z.ltb_ge in Hmin.
    destruct fuel; cbn [enough_playouts]; now rewrite Hmin.
  - destruct fuel as [|fuel]; [lia|].
    destruct (Hless 0%nat) as (ub0 & p0 & Hzero & Hlt); [lia|].
    cbn [playouts_run] in Hzero. inversion Hzero; subst ub0 p0.
    apply Z.ltb_lt in Hlt. cbn [enough_playouts]. rewrite Hlt.
    cbn [playouts_run] in Hrun. unfold bind at 1 in Hrun. unfold bind at 1.
    destruct (uct_playout u (set_es (Some ub) b) color ub p)
      as [[[r ub1]| | |] p1] eqn:Hplay; try discriminate Hrun.
    apply IH; [|lia]. split; [exact Hrun|]. split; [exact Hmin|].
    intros i Hi. destruct (Hless (S i)) as (ub_i & p_i & Hi' & Hlti); [lia|].
    exists ub_i, p_i. split; [|exact Hlti].
    cbn [playouts_run] in Hi'. unfold bind at 1 in Hi'.
    now rewrite Hplay in Hi'.
Qed.

(** The engine made by [uct_state_init] resigns below 0.2 and has a tree
    policy. *)
Lemma finish_state_returns (u0 u : uct) p p' :
  finish_state u0 p = (Returned u, p') ->
  resign_ratio u = fl_lit (2 # 10) /\ has (policy u) = true
  /\ xorb (nonzero (random_policy_chance u0)) (has (random_policy u0)) = false
  /\ p' = p.
Proof.
  unfold finish_state. cbv zeta. cbn.
  destruct (has (policy u0)) eqn:Hp; cbn;
    destruct (threads u0 =? 0); cbn;
    destruct (xorb (nonzero (random_policy_chance u0))
                   (has (random_policy u0)));
    cbn; try discriminate;
    destruct (has (prior u0)); cbn;
    intros E; inversion E; subst; cbn; auto.
Qed.

Lemma uct_state_init_resign_ratio (arg : option string) p u p' :
  uct_state_init arg p = (Returned u, p') ->
  resign_ratio u = fl_lit (2 # 10) /\ has (policy u) = true.
Proof.
  unfold uct_state_init. unfold bind at 1.
  destruct (read_options arg p) as [[u0| | |] p0]; try discriminate.
  intros E. apply finish_state_returns in E. tauto.
Qed.

(** C4. For an engine configured by [uct_state_init]: when the search of
    [uct_genmove] has returned and the policy's chosen root child has a
    value (as [tree_node_get_value] reads it for the side to move) below 0.2,
    the [resign_ratio] the initialisation sets, and is not the pass, [uct_genmove] destroys the per-game state of the board and
    returns RESIGN. *)
Theorem genmove_resigns (sched : schedule) (fuel : nat) (arg : option string)
        (e : engine) (b : board) (color : stone) (p00 p01 p p1 : process)
        (played_games : Z) (b1 : board) (ub : uct_board) (pol : uct_policy)
        (best : node_ptr) (chosen : tree_node) :
  uct_state_init arg p00 = (Returned (data e), p01) ->
  genmove_search sched e b color p = (Returned (played_games, b1), p1) ->
  es b1 = Some ub ->
  policy (data e) = Some pol ->
  choose pol (root (ub_t ub)) b1 color = Some best ->
  node_at (root (ub_t ub)) best = Some chosen ->
  fl_ltb (tree_node_get_value (ub_t ub) 1 (value (node_u chosen)))
         (fl_lit (2 # 10)) = true ->
  is_pass (coord chosen) = false ->
  uct_genmove sched fuel e b color p =
    (Returned (resign, set_es None b1),
     put_stderr (winner_report (data e) b1 (ub_t ub) color played_games chosen)
                p1)
  /\ es (set_es None b1) = None.
Proof.
  intros Hinit Hsearch Hes Hpol Hbest Hnode Hlow Hnp.
  apply uct_state_init_resign_ratio in Hinit. destruct Hinit as [Hratio _].
  split; [|reflexivity].
  unfold uct_genmove. rewrite (bind_returned _ _ _ _ _ Hsearch).
  cbv beta iota. rewrite Hes, Hpol, Hbest.
  unfold genmove_decide.
  rewrite (announce_winner _ _ _ _ _ _ _ _ _ Hnode).
  fold (winner_report (data e) b1 (ub_t ub) color played_games chosen).
  rewrite Hratio, Hlow, Hnp. cbn [negb andb].
  unfold uct_done_board_state. rewrite Hes. reflexivity.
Qed.

(** C3. When the board has more than one move played and the last move was
    a pass, and the chosen node exists and does not trigger resignation,
    [uct_genmove] first runs playouts, one after the other, until the
    ownership map holds at least GJ_MINGAMES = 500 of them: if [n] playouts
    are what that takes (they return, fewer leave the map below 500, the
    [n]-th leaves the state [ub'] with 500 or more), then for every bound
    [fuel >= n] the loop ends in that state [ub'], having run those [n]
    playouts and no other.  Then [uct_pass_is_safe] is asked on that state,
    and when it answers true [uct_genmove] returns PASS in place of the
    chosen move: the coord of the chosen node is set to pass in the tree as
    the playouts left it, and that node is promoted.  When it answers false
    the chosen move is returned. *)
Theorem genmove_passes_when_safe
        (sched : schedule) (n : nat) (e : engine) (b : board) (color : stone)
        (p p1 p2 p3 : process) (played_games : Z) (b1 : board)
        (ub ub' : uct_board) (pol : uct_policy) (best : node_ptr)
        (chosen chosen' : tree_node) (safe : bool) :
  genmove_search sched e b color p = (Returned (played_games, b1), p1) ->
  es b1 = Some ub ->
  policy (data e) = Some pol ->
  choose pol (root (ub_t ub)) b1 color = Some best ->
  node_at (root (ub_t ub)) best = Some chosen ->
  fl_ltb (tree_node_get_value (ub_t ub) 1 (value (node_u chosen)))
         (resign_ratio (data e)) && negb (is_pass (coord chosen)) = false ->
  1 < moves b ->
  is_pass (m_coord (last_move b)) = true ->
  minimum_reached_after n (data e) b1 color ub
    (put_stderr (winner_report (data e) b1 (ub_t ub) color played_games chosen)
                p1)
    ub' p2 ->
  node_at (root (ub_t ub')) best = Some chosen' ->
  uct_pass_is_safe (data e) (set_es (Some ub') b1) color p2
    = (Returned safe, p3) ->
  forall fuel, (n <= fuel)%nat ->
    enough_playouts fuel (data e) b1 color ub
      (put_stderr (winner_report (data e) b1 (ub_t ub) color played_games
                                 chosen) p1)
    = (Returned ub', p2)
    /\ uct_genmove sched fuel e b color p =
         (Returned
            (if safe then pass else coord chosen',
             set_es (Some (set_ub_t
                             (tree_promote_node
                                (if safe
                                 then set_coord_at (ub_t ub') best pass
                                 else ub_t ub')
                                best)
                             ub'))
                    b1),
          if safe && UDEBUGL (data e) 0
          then put_stderr [pass_line] p3 else p3).
Proof.
  intros Hsearch Hes Hpol Hbest Hnode Hkeep Hmoves Hlast Hmin Hnode' Hsafe
         fuel Hfuel.
  pose proof (enough_playouts_runs _ _ _ _ _ _ _ _ Hmin fuel Hfuel) as Hloop.
  split; [exact Hloop|].
  destruct (genmove_search_board _ _ _ _ _ _ _ _ Hsearch) as (Hm & Hl & _).
  unfold uct_genmove. rewrite (bind_returned _ _ _ _ _ Hsearch).
  cbv beta iota. rewrite Hes, Hpol, Hbest.
  unfold genmove_decide.
  rewrite (announce_winner _ _ _ _ _ _ _ _ _ Hnode).
  fold (winner_report (data e) b1 (ub_t ub) color played_games chosen).
  rewrite Hkeep, Hm, Hl, Hlast.
  assert (Hgt : (1 <? moves b) = true) by (apply Z.ltb_lt; exact Hmoves).
  rewrite Hgt. cbn [andb].
  unfold bind at 1. unfold bind at 1.
  rewrite Hloop.
  unfold bind at 1. rewrite Hsafe.
  destruct safe.
  - assert (Hread : node_at (root (set_coord_at (ub_t ub') best pass)) best
                    = Some (set_coord pass chosen')).
    { cbn [set_coord_at root]. now apply node_at_store. }
    destruct (UDEBUGL (data e) 0);
      cbn [when andb]; unfold bind, fprintf_stderr, ret, deref;
      cbn [set_ub_t ub_t]; rewrite Hread; reflexivity.
  - cbn [andb]. unfold bind, ret, deref. rewrite Hnode'. reflexivity.
Qed.

(** *** The C library on strings, continued *)

Lemma code_inj a b : code a = code b -> a = b.
Proof.
  unfold code. intros E. apply Nat2Z.inj in E.
  rewrite <- (ascii_nat_embedding a), <- (ascii_nat_embedding b).
  now rewrite E.
Qed.

Lemma code_tolower_zero c : code (tolower c) = 0 <-> code c = 0.
Proof.
  destruct c as [[] [] [] [] [] [] [] []]; vm_compute; split; congruence.
Qed.

Lemma strcasecmp_zero (b : string) :
  nul_free b = true ->
  forall a, strcasecmp a b = 0 <-> lower (cstr a) = lower b.
Proof.
  induction b as [|cb b IH]; intros Hb a.
  - destruct a as [|ca a]; cbn; [tauto|].
    rewrite code_tolower_zero.
    destruct (code ca =? 0) eqn:E; cbn.
    + apply Z.eqb_eq in E. tauto.
    + apply Z.eqb_neq in E. split; [tauto | discriminate].
  - cbn in Hb. apply andb_prop in Hb. destruct Hb as [Hcb Hb].
    apply negb_true_iff, Z.eqb_neq in Hcb.
    assert (Hlow : code (tolower cb) <> 0) by now rewrite code_tolower_zero.
    destruct a as [|ca a]; cbn.
    + split; [lia | discriminate].
    + destruct (code (tolower ca) =? code (tolower cb)) eqn:E.
      * apply Z.eqb_eq in E.
        assert (Hca : code ca <> 0).
        { rewrite <- code_tolower_zero. congruence. }
        apply Z.eqb_neq in Hca. rewrite Hca. cbn.
        apply code_inj in E. rewrite E, (IH Hb a).
        split; [intros ->; reflexivity | intros Q; now inversion Q].
      * apply Z.eqb_neq in E. split; [lia|].
        destruct (code ca =? 0); cbn; [discriminate|].
        intros Q. inversion Q. congruence.
Qed.

(** Comparing with a constant key: the comparison of the folded name with
    the folded key. *)
Lemma eq_nocase_const (a b : string) :
  nul_free b = true ->
  eq_nocase a b = String.eqb (lower (cstr a)) (lower b).
Proof.
  intros Hb. unfold eq_nocase.
  destruct (String.eqb_spec (lower (cstr a)) (lower b)) as [E|E].
  - apply Z.eqb_eq. now apply strcasecmp_zero.
  - apply Z.eqb_neq. intros Q. apply E. now apply strcasecmp_zero.
Qed.

(** *** The configuration: what the parser rejects *)

Lemma eq_nocase_key (a k : string) :
  nul_free k = true -> lower k = k ->
  eq_nocase a k = String.eqb (lower (cstr a)) k.
Proof. intros Hk Hl. rewrite eq_nocase_const by exact Hk. now rewrite Hl. Qed.

Ltac fold_keys :=
  repeat match goal with
         | |- context [eq_nocase ?a ?k] =>
             rewrite (eq_nocase_key a k eq_refl eq_refl)
         end.

Ltac split_key x tac :=
  match goal with
  | |- context [String.eqb x ?k] =>
      destruct (String.eqb_spec x k) as [-> | _]; [ tac | ]
  end.

Ltac close_case :=
  cbn; first [ reflexivity | eexists; reflexivity ].

(** One option: the parser ends the process on an invalid one, with the
    diagnostic that belongs to it, leaves the loop on the banner, and goes
    on otherwise (writing nothing). *)
Lemma parse_option_verdict (optname : string) (optval : option string)
      (next : string) (u : uct) (p : process) :
  if invalid_option (optname, optval)
  then parse_option optname optval next u p
       = (Exited 1, put_stderr [diagnostic (optname, optval)] p)
  else if is_banner (optname, optval)
       then exists u', parse_option optname optval next u p
                       = (Returned (Break u'), p)
       else exists u', parse_option optname optval next u p
                       = (Returned (Continue u'), p).
Proof.
  unfold invalid_option, unrecognized, missing_value, invalid_value, is_banner,
    diagnostic, among, keys_with_value, keys_alone, parse_option.
  cbn [fst snd existsb].
  fold_keys.
  generalize (lower (cstr optname)). intros x.
  destruct optval as [v|]; cbn [has text negb fst snd andb orb];
    repeat split_key x
      ltac:(first
              [ close_case
              | cbn; destruct (cut ":" v) as [nm parg]; cbn [fst];
                fold_keys; generalize (lower (cstr nm)); intros y;
                repeat split_key y ltac:(close_case);
                close_case
              | cbn; fold_keys; generalize (lower (cstr v)); intros y;
                repeat split_key y ltac:(close_case);
                close_case ]).
  all: close_case.
Qed.

Ltac close_fields :=
  cbn; intros E; inversion E; subst; cbn;
  rewrite ?orb_false_r, ?orb_true_r; split; reflexivity.

(** One option and the fallback policy: an option random_policy with a
    value sets the policy, an option random_policy_chance with a value sets
    the chance to the number [atoi] reads, and no other option touches
    either. *)
Lemma parse_option_fields (optname : string) (optval : option string)
      (next : string) (u : uct) (p : process) (r : parsed) (p' : process) :
  parse_option optname optval next u p = (Returned r, p') ->
  has (random_policy (settings r))
  = has (random_policy u) || gives_random_policy (optname, optval)
  /\ random_policy_chance (settings r)
     = if gives_chance (optname, optval) then atoi (text optval)
       else random_policy_chance u.
Proof.
  unfold gives_random_policy, gives_chance, parse_option.
  cbn [fst snd].
  fold_keys.
  generalize (lower (cstr optname)). intros x.
  destruct optval as [v|]; cbn [has text negb fst snd andb orb];
    repeat split_key x
      ltac:(first
              [ close_fields
              | cbn; destruct (cut ":" v) as [nm parg]; cbn [fst];
                fold_keys; generalize (lower (cstr nm)); intros y;
                repeat split_key y ltac:(close_fields);
                cbn; intros E; discriminate E
              | cbn; fold_keys; generalize (lower (cstr v)); intros y;
                repeat split_key y ltac:(close_fields);
                cbn; intros E; discriminate E ]).
  all: cbn; intros E; discriminate E.
Qed.

(** The parser's cut at the next comma yields the first item and leaves the
    text of the others. *)
Lemma optspecs_cut (c : ascii) (s : string) :
  optspecs (String c s) =
    fst (cut "," (String c s)) :: optspecs (text (snd (cut "," (String c s)))).
Proof.
  revert c. induction s as [|d s IH]; intros c.
  - cbn. destruct (Ascii.eqb c ","); reflexivity.
  - cbn [optspecs cut]. destruct (Ascii.eqb c ",") eqn:E; [reflexivity|].
    specialize (IH d). cbn [optspecs cut] in IH. rewrite IH.
    destruct (Ascii.eqb d ","); cbn; [reflexivity|].
    destruct (cut "," s) as [pre post]. reflexivity.
Qed.

Lemma cut_shorter (c : ascii) (s : string) :
  (String.length (text (snd (cut "," (String c s)))) < String.length (String c s))%nat.
Proof.
  revert c. induction s as [|d s IH]; intros c.
  - cbn. destruct (Ascii.eqb c ","); cbn; lia.
  - cbn [cut]. destruct (Ascii.eqb c ","); [cbn; lia|].
    specialize (IH d). cbn [cut] in IH.
    destruct (Ascii.eqb d ","); [cbn; lia|].
    destruct (cut "," s) as [pre post]. cbn in *. lia.
Qed.

Lemma parse_options_step (n : nat) (c : ascii) (s : string) (u : uct) :
  parse_options (S n) (String c s) u =
    (r <- parse_option (fst (option_of (fst (cut "," (String c s)))))
                       (snd (option_of (fst (cut "," (String c s)))))
                       (text (snd (cut "," (String c s)))) u ;;
     match r with
     | Continue u => parse_options n (text (snd (cut "," (String c s)))) u
     | Break u => ret u
     end).
Proof.
  cbn [parse_options]. unfold option_of.
  destruct (cut "," (String c s)) as [optspec rest]. cbn [fst snd].
  destruct (cut "=" optspec) as [optname optval]. reflexivity.
Qed.

Lemma existsb_find {A : Type} (f : A -> bool) (l : list A) :
  existsb f l = true -> exists x, find f l = Some x.
Proof.
  induction l as [|x l IH]; cbn; [discriminate|].
  destruct (f x); [intros _; now exists x | exact IH].
Qed.

(** The parsing loop ends the process at the first invalid option, with its
    diagnostic, the options before it having been read in silence. *)
Lemma parse_options_rejects (n : nat) :
  forall next u p o,
    (String.length next <= n)%nat ->
    find invalid_option (config_options next) = Some o ->
    parse_options n next u p = (Exited 1, put_stderr [diagnostic o] p).
Proof.
  unfold config_options.
  induction n as [|n IH]; intros [|c s] u p o0 Hlen Hbad;
    try discriminate Hbad; [cbn in Hlen; lia|].
  rewrite parse_options_step. rewrite optspecs_cut in Hbad.
  cbn [map upto_banner] in Hbad.
  pose proof (cut_shorter c s) as Hshort.
  set (o := option_of (fst (cut "," (String c s)))) in *.
  set (rest := text (snd (cut "," (String c s)))) in *.
  pose proof (parse_option_verdict (fst o) (snd o) rest u p) as Hv.
  rewrite <- surjective_pairing in Hv.
  destruct (invalid_option o) eqn:Hinv.
  - assert (Ho : o0 = o).
    { destruct (is_banner o); cbn [find] in Hbad; rewrite Hinv in Hbad;
        now inversion Hbad. }
    subst o0. now apply bind_exited.
  - destruct (is_banner o) eqn:Hban.
    + cbn in Hbad. rewrite Hinv in Hbad. discriminate.
    + destruct Hv as [u' Hv]. rewrite (bind_returned _ _ _ _ _ Hv).
      cbn [find] in Hbad. rewrite Hinv in Hbad.
      apply IH; [cbn in Hlen, Hshort; lia | exact Hbad].
Qed.

(** With no invalid option the loop reads the string to its end, or to the
    banner, in silence; the fallback policy and its chance are then as the
    options give them. *)
Lemma parse_options_accepts (n : nat) :
  forall next u p,
    (String.length next <= n)%nat ->
    find invalid_option (config_options next) = None ->
    exists u',
      parse_options n next u p = (Returned u', p)
      /\ has (random_policy u')
         = has (random_policy u) || random_policy_given (config_options next)
      /\ random_policy_chance u'
         = chance_given (random_policy_chance u) (config_options next).
Proof.
  unfold config_options, random_policy_given, chance_given.
  induction n as [|n IH]; intros [|c s] u p Hlen Hok;
    try (exists u; cbn; rewrite orb_false_r; repeat split; reflexivity);
    [cbn in Hlen; lia|].
  rewrite parse_options_step. rewrite optspecs_cut in *.
  cbn [map upto_banner] in *.
  pose proof (cut_shorter c s) as Hshort.
  set (o := option_of (fst (cut "," (String c s)))) in *.
  set (rest := text (snd (cut "," (String c s)))) in *.
  pose proof (parse_option_verdict (fst o) (snd o) rest u p) as Hv.
  rewrite <- surjective_pairing in Hv.
  assert (Hinv : invalid_option o = false).
  { destruct (is_banner o); cbn [find] in Hok;
      destruct (invalid_option o); [discriminate | reflexivity
                                   | discriminate | reflexivity]. }
  rewrite Hinv in Hv.
  destruct (is_banner o) eqn:Hban; destruct Hv as [u1 Hv];
    rewrite (bind_returned _ _ _ _ _ Hv);
    destruct (parse_option_fields _ _ _ _ _ _ _ Hv) as [Hpol Hch];
    rewrite <- surjective_pairing in Hpol, Hch; cbn [settings] in Hpol, Hch.
  - exists u1. cbn [existsb fold_left]. rewrite orb_false_r.
    split; [reflexivity|]. split; assumption.
  - cbn [find] in Hok. rewrite Hinv in Hok.
    destruct (IH rest u1 p) as (u' & Hrun & Hpol' & Hch');
      [cbn in Hlen, Hshort; lia | exact Hok |].
    exists u'. split; [exact Hrun|].
    cbn [existsb fold_left]. rewrite <- Hch, orb_assoc, <- Hpol.
    split; assumption.
Qed.

(** C7. If one of the options of the configuration string has an
    unrecognized key, or a key that needs a value and has none, or a policy,
    playout or thread_model value that names none of the known ones,
    [uct_state_init] writes a diagnostic to stderr and ends the process with
    [exit(1)].  The diagnostic is the one of the first such option: Invalid
    tree policy, Invalid playout policy or Invalid thread model with the
    name the value gives, and else Invalid engine argument with the key, or
    missing value; nothing else is written. *)
Theorem uct_state_init_rejects (arg : string) (p : process) :
  existsb invalid_option (config_options arg) = true ->
  exists o,
    first_invalid arg = Some o
    /\ In o (config_options arg)
    /\ invalid_option o = true
    /\ uct_state_init (Some arg) p
       = (Exited 1, put_stderr [diagnostic o] p).
Proof.
  intros Hbad. unfold first_invalid.
  destruct (existsb_find _ _ Hbad) as [o Ho].
  exists o. split; [exact Ho|].
  destruct (find_some _ _ Ho) as [Hin Hinv].
  split; [exact Hin|]. split; [exact Hinv|].
  unfold uct_state_init, read_options. apply bind_exited.
  now apply parse_options_rejects.
Qed.

(** Conversely the options of an accepted string are all valid: with none
    invalid the argument string is read to its end, silently. *)
Lemma read_options_accepts (arg : string) (p : process) :
  existsb invalid_option (config_options arg) = false ->
  exists u, read_options (Some arg) p = (Returned u, p).
Proof.
  intros Hok. unfold read_options.
  destruct (find invalid_option (config_options arg)) as [o|] eqn:Hf.
  - destruct (find_some _ _ Hf) as [Hin Hinv].
    assert (Hex : existsb invalid_option (config_options arg) = true).
    { apply existsb_exists. now exists o. }
    congruence.
  - destruct (parse_options_accepts (String.length arg) arg uct_defaults p
                                    (le_n _) Hf) as (u & Hu & _).
    now exists u.
Qed.

(** *** The configuration: the fallback policy *)

Lemma finish_state_exits (u : uct) (p : process) :
  xorb (nonzero (random_policy_chance u)) (has (random_policy u)) = true ->
  finish_state u p = (Exited 1, put_stderr [only_one_line] p).
Proof.
  intros Hx. unfold finish_state. cbv zeta. cbn.
  destruct (has (policy u)); cbn; destruct (threads u =? 0); cbn;
    rewrite Hx; reflexivity.
Qed.

Lemma finish_state_accepts (u : uct) (p : process) :
  xorb (nonzero (random_policy_chance u)) (has (random_policy u)) = false ->
  exists u', finish_state u p = (Returned u', p).
Proof.
  intros Hx. unfold finish_state. cbv zeta. cbn.
  destruct (has (policy u)); cbn; destruct (threads u =? 0); cbn;
    rewrite Hx; eexists; reflexivity.
Qed.

(** C9. [uct_state_init] ends the process with a diagnostic whenever
    exactly one of random_policy and random_policy_chance is set by the
    options of the configuration string, random_policy being set by an
    option random_policy=<policy> and random_policy_chance by a number that
    is not 0 (the last given counts, read as [atoi] reads it).  The
    diagnostic is Only one of random_policy and random_policy_chance is set
    when every option is valid, and the diagnostic of the first invalid
    option otherwise.  When both are set, or neither, and every option is
    valid, the initialisation returns, having written nothing. *)
Theorem random_policy_needs_chance (arg : string) (p : process) :
  (exactly_one_given arg = true ->
   uct_state_init (Some arg) p =
     (Exited 1,
      put_stderr [match first_invalid arg with
                  | Some o => diagnostic o
                  | None => only_one_line
                  end] p))
  /\ (exactly_one_given arg = false ->
      first_invalid arg = None ->
      exists u, uct_state_init (Some arg) p = (Returned u, p)).
Proof.
  unfold exactly_one_given, first_invalid.
  destruct (find invalid_option (config_options arg)) as [o|] eqn:Hf.
  - split; [|intros _ Hn; discriminate Hn].
    intros _. unfold uct_state_init, read_options. apply bind_exited.
    now apply parse_options_rejects.
  - destruct (parse_options_accepts (String.length arg) arg uct_defaults p
                                    (le_n _) Hf) as (u & Hu & Hpol & Hch).
    cbn [uct_defaults random_policy random_policy_chance has orb] in Hpol, Hch.
    unfold uct_state_init, read_options.
    rewrite (bind_returned _ _ _ _ _ Hu).
    rewrite <- Hpol, <- Hch.
    split.
    + intros Hx. now apply finish_state_exits.
    + intros Hx _. now apply finish_state_accepts.
Qed.

(** *** The winrate chat command *)



(** *** Preparing a move, continued *)

Lemma set_es_same (b : board) : set_es (es b) b = b.
Proof. destruct b; reflexivity. Qed.

(** What [prepare_move] returns, when it returns: the tree in hand, with
    the dynamic komi when it applies, a cleared ownership map, and the
    process as the building of a fresh state leaves it. *)
Lemma prepare_move_result (e : engine) (b : board) (color : stone) p b1 p1 :
  prepare_move e b color p = (Returned b1, p1) ->
  exists ub0,
    ub_t ub0 = tree_in_hand (data e) b color
    /\ b1 = set_es
              (Some {| ub_t := if dynkomi_applies (data e) b color
                               then set_extra_komi
                                      (uct_get_extra_komi
                                         (data e) (set_es (Some ub0) b))
                                      (ub_t ub0)
                               else ub_t ub0;
                       ub_ownermap := cleared_ownermap b |}) b
    /\ (forall ub, es b = Some ub ->
        ub0 = ub /\ p1 = p /\ moves b <> 0
        /\ color = stone_other (root_color (ub_t ub)))
    /\ (es b = None ->
        uct_halt p1 = uct_halt p
        /\ rng p1 = seeded (data e) (rng p)
        /\ stderr p1 = (stderr p
                          ++ if UDEBUGL (data e) 0
                             then [fresh_line (seeded (data e) (rng p))]
                             else [])%list).
Proof.
  unfold prepare_move, tree_in_hand, fresh_tree, dynkomi_applies, seeded.
  destruct (es b) as [ub|] eqn:Hes.
  - unfold bind at 1. unfold bind at 1. unfold assert.
    destruct (moves b =? 0) eqn:Hm; [discriminate|]. cbn [negb].
    destruct (stone_eqb color (stone_other (root_color (ub_t ub)))) eqn:Hc;
      [|discriminate].
    apply Z.eqb_neq in Hm. apply stone_eqb_eq in Hc.
    cbn [negb ret]. intros E. inversion E; subst b1 p1; clear E.
    exists ub. split; [reflexivity|]. split; [reflexivity|].
    split; [intros ub' Q; inversion Q; subst; auto | discriminate].
  - unfold bind, when, assert, ret, set_rng, get_rng, fprintf_stderr.
    destruct (force_seed (data e) =? 0); cbn [negb];
      destruct (UDEBUGL (data e) 0);
      destruct (negb (no_book (data e)) && (moves b =? 0));
      try destruct (stone_eqb color S_BLACK);
      intros E; inversion E; subst; clear E;
      (match goal with
       | |- exists ub0, ub_t ub0 = ?t /\ _ =>
           exists {| ub_t := t;
                     ub_ownermap := {| om_playouts := 0; om_map := [] |} |}
       end;
       split; [reflexivity|]; split; [reflexivity|];
       split; [discriminate|]; intros _; cbn;
       rewrite ?app_nil_r; repeat split; reflexivity).
Qed.

(** X1. Whenever [prepare_move] returns, the board has per-game state whose
    ownership map is cleared (no playout recorded, every point of the board
    at zero), whatever the map held before; the moves, the last move, the
    superko flag, the size and the stones of the board are as they were, and
    so is the halt flag. *)
Theorem prepare_move_clears_ownermap (e : engine) (b : board) (color : stone)
        (p p1 : process) (b1 : board) :
  prepare_move e b color p = (Returned b1, p1) ->
  (exists ub1, es b1 = Some ub1
               /\ om_playouts (ub_ownermap ub1) = 0
               /\ om_map (ub_ownermap ub1)
                  = repeat (0, 0, 0) (Z.to_nat (board_size2 b)))
  /\ moves b1 = moves b /\ last_move b1 = last_move b
  /\ superko_violation b1 = superko_violation b
  /\ board_size2 b1 = board_size2 b /\ stones b1 = stones b
  /\ uct_halt p1 = uct_halt p.
Proof.
  intros Hrun.
  destruct (prepare_move_result _ _ _ _ _ _ Hrun)
    as (ub0 & _ & -> & Hkept & Hfresh).
  split; [eexists; repeat split|]. cbn. repeat split.
  destruct (es b) as [ub|] eqn:Hes.
  - destruct (Hkept ub eq_refl) as (_ & -> & _). reflexivity.
  - now destruct (Hfresh eq_refl).
Qed.

(** X2. On a board without per-game state [prepare_move] builds one and
    returns, unless the opening book is on and no move has been played:
    then the first move must be Black's, and for any other colour the
    assertion color == S_BLACK ends the process. *)
Theorem prepare_move_first_move (e : engine) (b : board) (color : stone)
        (p : process) :
  es b = None ->
  (no_book (data e) = true \/ moves b <> 0 \/ color = S_BLACK ->
   exists ub p1,
     prepare_move e b color p = (Returned (set_es (Some ub) b), p1))
  /\ (no_book (data e) = false -> moves b = 0 -> color <> S_BLACK ->
      exists p0,
        prepare_move e b color p
        = (Aborted "color == S_BLACK", failed "color == S_BLACK" p0)
        /\ uct_halt p0 = uct_halt p
        /\ rng p0 = seeded (data e) (rng p)).
Proof.
  intros Hes. split; [now apply prepare_move_fresh|].
  intros Hb Hm Hc. apply stone_eqb_neq in Hc. apply Z.eqb_eq in Hm.
  unfold prepare_move, seeded. rewrite Hes.
  unfold bind, when, assert, ret, set_rng, get_rng, fprintf_stderr.
  rewrite Hb, Hm, Hc. cbn [negb andb].
  destruct (force_seed (data e) =? 0); destruct (UDEBUGL (data e) 0);
    cbn [negb]; eexists; split; try reflexivity; split; reflexivity.
Qed.

(** X3. [prepare_move] touches the process only when it builds a fresh
    state: with state kept from the previous move nothing is written and
    the random generator is left alone; without, the generator is reseeded
    exactly when force_seed is not 0, and the line Fresh board with random
    seed, telling the seed then in use, is written exactly when UDEBUGL(0)
    holds. *)
Theorem prepare_move_seeds_once (e : engine) (b : board) (color : stone)
        (p p1 : process) (b1 : board) :
  prepare_move e b color p = (Returned b1, p1) ->
  (es b <> None -> p1 = p)
  /\ (es b = None ->
      rng p1 = (if force_seed (data e) =? 0 then rng p
                else fast_srandom (force_seed (data e)))
      /\ stderr p1 = (stderr p
                        ++ if UDEBUGL (data e) 0 then [fresh_line (rng p1)]
                           else [])%list).
Proof.
  intros Hrun.
  destruct (prepare_move_result _ _ _ _ _ _ Hrun)
    as (ub0 & _ & _ & Hkept & Hfresh).
  split.
  - destruct (es b) as [ub|]; [intros _ | congruence].
    now destruct (Hkept ub eq_refl) as (_ & -> & _).
  - intros Hes. destruct (Hfresh Hes) as (_ & Hr & Hs).
    split; [exact Hr|]. now rewrite Hr.
Qed.

(** X4. [prepare_move] changes nothing of the tree but its extra komi: the
    root and the root colour are those of the tree kept in the board (or of
    the fresh tree); the tree is that tree unchanged unless dynkomi is set,
    the board has fewer moves than dynkomi and the colour is in
    dynkomi_mask, in which case, for a kept state, the extra komi is what
    [uct_get_extra_komi] gives for the board. *)
Theorem prepare_move_dynkomi (e : engine) (b : board) (color : stone)
        (p p1 : process) (b1 : board) :
  prepare_move e b color p = (Returned b1, p1) ->
  exists ub1,
    es b1 = Some ub1
    /\ root (ub_t ub1) = root (tree_in_hand (data e) b color)
    /\ root_color (ub_t ub1) = root_color (tree_in_hand (data e) b color)
    /\ (dynkomi_applies (data e) b color = false ->
        ub_t ub1 = tree_in_hand (data e) b color)
    /\ (dynkomi_applies (data e) b color = true ->
        forall ub, es b = Some ub ->
                   extra_komi (ub_t ub1) = uct_get_extra_komi (data e) b).
Proof.
  intros Hrun.
  destruct (prepare_move_result _ _ _ _ _ _ Hrun)
    as (ub0 & Ht & -> & Hkept & _).
  eexists. split; [reflexivity|]. cbn [ub_t]. rewrite <- Ht.
  destruct (dynkomi_applies (data e) b color); repeat split;
    try discriminate; try reflexivity.
  intros _ ub Hes. destruct (Hkept ub Hes) as (-> & _).
  cbn. rewrite <- Hes, set_es_same. reflexivity.
Qed.

(** X5. Creating the per-game state and destroying it gives the board
    back: after [prepare_move] on a board without state,
    [uct_done_board_state] returns the board as it was before, writing
    nothing; and destroying the state of a board that has none fails the
    assertion ub. *)
Theorem state_created_then_destroyed (e : engine) (b : board) (color : stone)
        (p p1 : process) (b1 : board) :
  es b = None ->
  prepare_move e b color p = (Returned b1, p1) ->
  uct_done_board_state e b1 p1 = (Returned b, p1)
  /\ uct_done_board_state e b p1 = (Aborted "ub", failed "ub" p1).
Proof.
  intros Hes Hrun.
  destruct (prepare_move_result _ _ _ _ _ _ Hrun) as (ub0 & _ & -> & _).
  unfold uct_done_board_state. cbn [es set_es]. rewrite Hes. split.
  - destruct b; cbn in Hes; subst; reflexivity.
  - reflexivity.
Qed.

(** *** Dead groups *)

Lemma foreach_dead (b : board) (ub : uct_board) (points : list Z) :
  forall mq p,
    foreach_point points
      (fun c mq =>
         let g := group_at b c in
         if (g =? 0) || negb (g =? c) then ret mq
         else
           assert (match judged b ub g with GS_NONE => false | _ => true end)
                  "gj.gs[g] != GS_NONE" ;;
           match judged b ub g with
           | GS_DEAD => ret (mq_add mq (at_point g))
           | _ => ret mq
           end)
      mq p
    = if existsb (fun c => group_base b c && is_unjudged (judged b ub c)) points
      then (Aborted unjudged_line, failed unjudged_line p)
      else (Returned
              (mq ++ map at_point
                         (filter (fun c => group_base b c
                                           && is_dead (judged b ub c)) points))%list,
            p).
Proof.
  induction points as [|c points IH]; intros mq p.
  - cbn. now rewrite app_nil_r.
  - cbn [foreach_point existsb filter]. unfold group_base at 1 3.
    unfold bind at 1.
    destruct (group_at b c =? 0) eqn:E0; cbn [orb negb andb].
    + cbn [ret]. apply IH.
    + destruct (group_at b c =? c) eqn:Ec; cbn [negb andb orb].
      * apply Z.eqb_eq in Ec. rewrite Ec.
        destruct (judged b ub c) eqn:Ej; cbn; try apply IH.
        -- reflexivity.
        -- rewrite IH. unfold mq_add. cbn [map]. now rewrite <- app_assoc.
      * cbn [ret]. apply IH.
Qed.

Lemma dead_group_list_run (u : uct) (b : board) (ub : uct_board)
      (mq : move_queue) (p : process) :
  es b = Some ub ->
  dead_group_list u b mq p =
    if unjudged_group b ub
    then (Aborted unjudged_line, failed unjudged_line p)
    else (Returned (mq ++ dead_groups b ub)%list, p).
Proof.
  intros Hes. unfold dead_group_list. rewrite Hes.
  apply (foreach_dead b ub (board_points b) mq p).
Qed.

Lemma dead_group_list_appends (u : uct) (b : board) (mq mq' : move_queue)
      (p p' : process) :
  dead_group_list u b mq p = (Returned mq', p') ->
  p' = p /\ exists ub, es b = Some ub /\ mq' = (mq ++ dead_groups b ub)%list.
Proof.
  destruct (es b) as [ub|] eqn:Hes.
  - rewrite (dead_group_list_run u b ub mq p Hes).
    destruct (unjudged_group b ub); [discriminate|].
    intros E. inversion E; subst. split; [reflexivity|].
    exists ub. split; reflexivity.
  - unfold dead_group_list. rewrite Hes. cbn. discriminate.
Qed.

(** X6. On a board with per-game state [dead_group_list] adds to the queue,
    after what it holds, the groups judged dead from the ownership map at
    the threshold 0.8, each once, named by its base point and in point
    order; groups judged alive or unknown are left out, nothing is written
    and the process is left as it is.  A group without judgement fails the
    assertion gj.gs[g] != GS_NONE. *)
Theorem dead_group_list_queue (u : uct) (b : board) (ub : uct_board)
        (mq : move_queue) (p : process) :
  es b = Some ub ->
  dead_group_list u b mq p =
    if unjudged_group b ub
    then (Aborted "gj.gs[g] != GS_NONE", failed "gj.gs[g] != GS_NONE" p)
    else (Returned (mq ++ dead_groups b ub)%list, p).
Proof. exact (dead_group_list_run u b ub mq p). Qed.

(** X7. With at least GJ_MINGAMES = 500 playouts in the ownership map,
    [uct_pass_is_safe] is the board's [pass_is_safe] on the groups judged
    dead, and on no group at all when pass_all_alive is set (the ownership
    map is then not consulted, so that no assertion on it can fail). *)
Theorem uct_pass_is_safe_verdict (u : uct) (b : board) (color : stone)
        (ub : uct_board) (p : process) :
  es b = Some ub ->
  GJ_MINGAMES <= om_playouts (ub_ownermap ub) ->
  uct_pass_is_safe u b color p =
    if pass_all_alive u then (Returned (pass_is_safe b color []), p)
    else if unjudged_group b ub
         then (Aborted "gj.gs[g] != GS_NONE", failed "gj.gs[g] != GS_NONE" p)
         else (Returned (pass_is_safe b color (dead_groups b ub)), p).
Proof.
  intros Hes Hmin. unfold uct_pass_is_safe. rewrite Hes.
  apply Z.ltb_ge in Hmin. rewrite Hmin.
  destruct (pass_all_alive u); cbn [negb]; [reflexivity|].
  unfold bind at 1. rewrite (dead_group_list_run u b ub [] p Hes).
  destruct (unjudged_group b ub); reflexivity.
Qed.

(** X8. Whenever [uct_dead_group_list] returns, the board is as it was
    before the call: state that was there is kept, and the state mocked up
    for a board without one is destroyed again.  With pass_all_alive set
    the queue and the process are untouched.  Otherwise the dead groups are
    added after what the queue holds: on a board with state those of its
    ownership map, nothing else happening; on a board without state those
    of the map left by GJ_MINGAMES = 500 playouts for Black on a state
    freshly prepared for Black. *)
Theorem uct_dead_group_list_restores (e : engine) (b b' : board)
        (mq mq' : move_queue) (p p' : process) :
  uct_dead_group_list e b mq p = (Returned (mq', b'), p') ->
  b' = b
  /\ (pass_all_alive (data e) = true -> mq' = mq /\ p' = p)
  /\ (pass_all_alive (data e) = false ->
      forall ub, es b = Some ub ->
                 mq' = (mq ++ dead_groups b ub)%list /\ p' = p)
  /\ (pass_all_alive (data e) = false -> es b = None ->
      exists ub1 p1 ub2,
        prepare_move e b S_BLACK p = (Returned (set_es (Some ub1) b), p1)
        /\ seed_ownermap 500 (data e) (set_es (Some ub1) b) ub1 p1
           = (Returned ub2, p')
        /\ mq' = (mq ++ dead_groups (set_es (Some ub2) b) ub2)%list).
Proof.
  unfold uct_dead_group_list.
  destruct (pass_all_alive (data e)) eqn:Hall.
  - cbn [ret]. intros E. inversion E; subst.
    split; [reflexivity|].
    split; [auto|]. split; intros; discriminate.
  - destruct (es b) as [ub|] eqn:Hes.
    + rewrite bind_ret.
      unfold bind at 1.
      destruct (dead_group_list (data e) b mq p) as [[mq1| | |] p1] eqn:Hd;
        try discriminate.
      destruct (dead_group_list_appends _ _ _ _ _ _ Hd)
        as (-> & ub' & Hes' & ->).
      cbn [ret]. intros E. inversion E; subst.
      rewrite Hes in Hes'. inversion Hes'; subst ub'.
      split; [reflexivity|].
      split; [discriminate|].
      split; [|intros _ Q; discriminate Q].
      intros _ ub0 Q. inversion Q; subst. split; reflexivity.
    + unfold bind at 1. unfold bind at 1.
      destruct (prepare_move e b S_BLACK p) as [[b1| | |] p1] eqn:Hprep;
        try discriminate.
      destruct (prepare_move_shape _ _ _ _ _ _ Hprep) as (ub1 & ->).
      cbn [es set_es]. unfold bind at 1.
      change (Z.to_nat GJ_MINGAMES) with 500%nat.
      destruct (seed_ownermap 500 (data e) (set_es (Some ub1) b) ub1 p1)
        as [[ub2| | |] p2] eqn:Hseed; try discriminate.
      cbn [ret]. unfold bind at 1.
      change (set_es (Some ub2) (set_es (Some ub1) b))
        with (set_es (Some ub2) b).
      destruct (dead_group_list (data e) (set_es (Some ub2) b) mq p2)
        as [[mq1| | |] p3] eqn:Hd; try discriminate.
      destruct (dead_group_list_appends _ _ _ _ _ _ Hd)
        as (-> & ub' & Hes' & ->).
      cbn [es set_es] in Hes'. inversion Hes'; subst ub'.
      unfold uct_done_board_state. cbn [es set_es bind ret].
      intros E. inversion E; subst.
      split; [destruct b; cbn in Hes; subst; reflexivity|].
      split; [discriminate|].
      split; [intros _ ub0 Q; discriminate Q|].
      intros _ _. exists ub1, p1, ub2.
      split; [first [reflexivity | exact Hprep]|].
      split; [first [reflexivity | exact Hseed] | reflexivity].
Qed.

(** *** What the root-parallel driver gathers *)



(** X9. The workers are spawned with the thread numbers 0, 1, 2, ... in
    order; the seed of each is one draw of [fast_random(65536)] plus its
    thread number, the draws being taken one after the other from the
    generator of the process; each gets a copy of the tree, made by
    [tree_copy], and the engine, the board and the colour of the call.  The
    halt flag is not touched by the spawning. *)
Theorem spawn_threads_contexts n :
  forall ti u b color t p,
  exists ctxs p',
    spawn_threads n ti u b color t p = (Returned ctxs, p')
    /\ map tid ctxs = map (fun k => ti + Z.of_nat k) (seq 0 n)
    /\ map (fun c => seed c - tid c) ctxs = fst (draws n (rng p))
    /\ Forall (fun c => ctx_t c = tree_copy t /\ ctx_u c = u
                        /\ ctx_b c = b /\ ctx_color c = color) ctxs
    /\ rng p' = snd (draws n (rng p))
    /\ uct_halt p' = uct_halt p.
Proof.
  induction n as [|n IH]; intros ti u b color t p.
  - exists [], p. repeat split. constructor.
  - cbn [spawn_threads draws]. unfold bind at 1. unfold get_rng at 1.
    destruct (fast_random 65536 (rng p)) as [x r'] eqn:Hx.
    unfold bind at 1. unfold set_rng at 1. unfold bind at 1.
    set (p1 := {| stderr := stderr p; uct_halt := uct_halt p; rng := r' |}).
    assert (Hw : exists p2,
               when (UDEBUGL u 2)
                    (fprintf_stderr ("Spawned thread " ++ fmt_d ti ++ nl)) p1
               = (Returned tt, p2) /\ uct_halt p2 = uct_halt p
               /\ rng p2 = r').
    { destruct (UDEBUGL u 2); cbn; eexists; repeat split. }
    destruct Hw as (p2 & Hw & Hh2 & Hr2). rewrite Hw.
    destruct (IH (ti + 1) u b color t p2)
      as (ctxs & p3 & Hs & Htid & Hseed & Hall & Hr3 & Hh3).
    unfold bind at 1. rewrite Hs. cbn [ret].
    rewrite Hr2 in *. destruct (draws n r') as [xs r''] eqn:Hd.
    eexists; eexists; split; [reflexivity|].
    cbn [map seq fst snd combine tid seed]. repeat split.
    + f_equal; [lia|]. rewrite Htid, <- seq_shift, map_map.
      apply map_ext. intros k. lia.
    + f_equal; [lia | exact Hseed].
    + constructor; [repeat split | exact Hall].
    + exact Hr3.
    + congruence.
Qed.


(** *** The engine that [uct_state_init] makes *)

Lemma finish_state_full (u0 u : uct) p p' :
  finish_state u0 p = (Returned u, p') ->
  p' = p
  /\ (has (policy u) = true /\ has (playout u) = true /\ has (prior u) = true)
  /\ (resign_ratio u = fl_lit (2 # 10)
      /\ loss_threshold u = fl_lit (85 # 100))
  /\ (forall pp, playout u = Some pp -> pp_debug_level pp = debug_level u)
  /\ nonzero (random_policy_chance u) = has (random_policy u)
  /\ (threads u = 0 -> thread_model u = TM_NONE)
  /\ (threads u <> 0 -> thread_model u = thread_model u0)
  /\ (games u = games u0 /\ threads u = threads u0
      /\ debug_level u = debug_level u0 /\ banner u = banner u0).
Proof.
  unfold finish_state. cbv zeta. cbn.
  destruct (has (policy u0)) eqn:Hp; cbn;
    destruct (threads u0 =? 0) eqn:Ht; cbn;
    destruct (nonzero (random_policy_chance u0)) eqn:Hc;
    destruct (has (random_policy u0)) eqn:Hr;
    cbn; try discriminate;
    destruct (has (prior u0)) eqn:Hpr; cbn;
    intros E; inversion E; subst; cbn;
    rewrite ?Z.eqb_eq, ?Z.eqb_neq in Ht;
    repeat split; auto; try tauto; try congruence;
    try (intros pp Q; inversion Q; reflexivity).
Qed.

Lemma read_options_silent (arg : option string) (u : uct) (p p' : process) :
  read_options arg p = (Returned u, p') -> p' = p.
Proof.
  destruct arg as [a|]; cbn; [|intros E; now inversion E].
  destruct (find invalid_option (config_options a)) as [o|] eqn:Hf.
  - rewrite (parse_options_rejects (String.length a) a uct_defaults p o
                                   (le_n _) Hf). discriminate.
  - destruct (parse_options_accepts (String.length a) a uct_defaults p
                                    (le_n _) Hf) as (u1 & Hu & _).
    rewrite Hu. intros E. now inversion E.
Qed.

(** X11. Whenever [uct_state_init] returns, it has written nothing, and the
    engine it returns is complete: it has a tree policy, a playout policy
    and a prior, whether the options named them or not; it resigns below
    0.2 and its loss threshold is 0.85, whatever the options; the debug
    level of its playout policy is its own; its fallback policy is set
    exactly when the chance of it is not 0; and with no threads its thread
    model is NONE. *)
Theorem uct_state_init_engine (arg : option string) (u : uct)
        (p p' : process) :
  uct_state_init arg p = (Returned u, p') ->
  p' = p
  /\ (has (policy u) = true /\ has (playout u) = true /\ has (prior u) = true)
  /\ (resign_ratio u = fl_lit (2 # 10)
      /\ loss_threshold u = fl_lit (85 # 100))
  /\ (forall pp, playout u = Some pp -> pp_debug_level pp = debug_level u)
  /\ nonzero (random_policy_chance u) = has (random_policy u)
  /\ (threads u = 0 -> thread_model u = TM_NONE).
Proof.
  unfold uct_state_init. unfold bind at 1.
  destruct (read_options arg p) as [[u0| | |] p0] eqn:Hread;
    try discriminate.
  intros E. apply finish_state_full in E.
  apply read_options_silent in Hread. subst p0. tauto.
Qed.

(** X12. For an engine made by [uct_state_init]: with threads=0 (the
    default) the search is the single-threaded [uct_playouts], whatever
    thread_model says, no worker being spawned and the halt flag left alone;
    with a negative number of threads in the ROOT model the search fails
    the assertion u->threads > 0 before anything is spawned. *)
Theorem search_thread_count (arg : option string) (u : uct) (p0 p0' : process)
        (sched : schedule) (b : board) (color : stone) (ub : uct_board)
        (p : process) :
  uct_state_init arg p0 = (Returned u, p0') ->
  (threads u = 0 ->
   uct_threaded_playouts sched u b color ub p = uct_playouts u b color ub p)
  /\ (threads u < 0 -> thread_model u = TM_ROOT ->
      uct_threaded_playouts sched u b color ub p
      = (Aborted "u->threads > 0", failed "u->threads > 0" p)).
Proof.
  intros Hinit. unfold uct_state_init in Hinit. unfold bind at 1 in Hinit.
  destruct (read_options arg p0) as [[u0| | |] p1]; try discriminate.
  apply finish_state_full in Hinit.
  destruct Hinit as (_ & _ & _ & _ & _ & Hnone & _).
  split.
  - intros Ht. unfold uct_threaded_playouts. now rewrite (Hnone Ht).
  - intros Hneg Hroot. unfold uct_threaded_playouts, root_driver.
    rewrite Hroot.
    assert (Hpos : (0 <? threads u) = false) by (apply Z.ltb_ge; lia).
    rewrite Hpos. reflexivity.
Qed.

(** *** The banner *)

Lemma cut_joins (c : ascii) (s : string) :
  s = match snd (cut c s) with
      | Some post => fst (cut c s) ++ String c post
      | None => fst (cut c s)
      end.
Proof.
  induction s as [|d s IH]; [reflexivity|].
  cbn [cut]. destruct (Ascii.eqb_spec d c) as [->|Hne]; [reflexivity|].
  destruct (cut c s) as [pre [post|]]; cbn in *; now rewrite <- IH.
Qed.

Lemma cut_prefix_free (c : ascii) (pre s : string) :
  mem c pre = false ->
  cut c (pre ++ s) = (pre ++ fst (cut c s), snd (cut c s)).
Proof.
  induction pre as [|d pre IH]; intros Hfree.
  - cbn. now destruct (cut c s).
  - cbn in Hfree. apply orb_false_elim in Hfree. destruct Hfree as [Hd Hfree].
    cbn [append cut]. rewrite Ascii.eqb_sym, Hd. rewrite (IH Hfree).
    reflexivity.
Qed.

Lemma finish_state_banner (bn : option string) (p : process) :
  exists u,
    finish_state (set_banner bn uct_defaults) p = (Returned u, p)
    /\ banner u = bn.
Proof. unfold finish_state. cbn. eexists. split; reflexivity. Qed.

(** X13. A configuration string that starts with banner= is accepted
    whatever follows, in silence, and the banner of the engine is the whole
    text after banner=, commas and equals signs included, since the parser
    puts back the comma it cut at.  One comma is lost: the first of the
    text when it is also its last character; the banner is then the text
    before it. *)
Theorem banner_is_kept (words : string) (p : process) :
  exists u,
    uct_state_init (Some ("banner=" ++ words)) p = (Returned u, p)
    /\ banner u = Some (match snd (cut "," words) with
                        | Some EmptyString => fst (cut "," words)
                        | _ => words
                        end).
Proof.
  unfold uct_state_init, read_options.
  change (String.length ("banner=" ++ words))
    with (S (String.length ("anner=" ++ words))).
  change ("banner=" ++ words) with (String "b" ("anner=" ++ words)).
  rewrite parse_options_step.
  change (String "b" ("anner=" ++ words)) with ("banner=" ++ words).
  rewrite (cut_prefix_free "," "banner=" words eq_refl). cbn [fst snd].
  unfold option_of.
  change (cut "=" ("banner=" ++ fst (cut "," words)))
    with ("banner", Some (fst (cut "," words))).
  cbn [fst snd].
  set (t1 := fst (cut "," words)). set (next := text (snd (cut "," words))).
  assert (Hopt : parse_option "banner" (Some t1) next uct_defaults p
                 = (Returned (Break (set_banner
                                       (Some (match next with
                                              | EmptyString => t1
                                              | _ => t1 ++ "," ++ next
                                              end)) uct_defaults)), p)).
  { reflexivity. }
  unfold bind at 1.
  rewrite (bind_returned _ _ _ _ _ Hopt). cbn [ret].
  match goal with
  | |- context [set_banner ?bn uct_defaults] =>
      destruct (finish_state_banner bn p) as (u & Hu & Hb)
  end.
  exists u. split; [exact Hu|]. rewrite Hb.
  f_equal. subst t1 next.
  pose proof (cut_joins "," words) as Hj.
  destruct (snd (cut "," words)) as [[|c post]|]; cbn [text];
    try reflexivity; symmetry; exact Hj.
Qed.

(** *** Move generation: the other ways out *)

(** X14. When the policy chooses no node (the tree has no move to offer),
    [uct_genmove] answers PASS and destroys the per-game state; nothing is
    written about a winner. *)
Theorem genmove_without_choice
        (sched : schedule) (fuel : nat) (e : engine) (b : board)
        (color : stone) (p p1 : process) (played_games : Z) (b1 : board)
        (ub : uct_board) (pol : uct_policy) :
  genmove_search sched e b color p = (Returned (played_games, b1), p1) ->
  es b1 = Some ub ->
  policy (data e) = Some pol ->
  choose pol (root (ub_t ub)) b1 color = None ->
  uct_genmove sched fuel e b color p = (Returned (pass, set_es None b1), p1).
Proof.
  intros Hsearch Hes Hpol Hnone.
  unfold uct_genmove. rewrite (bind_returned _ _ _ _ _ Hsearch).
  cbv beta iota. rewrite Hes, Hpol, Hnone.
  unfold uct_done_board_state. rewrite Hes. reflexivity.
Qed.

(** X15. The ordinary move: when the chosen node does not trigger
    resignation (its value is not below resign_ratio, or it is the pass)
    and the opponent has not just passed (the last move is no pass, or at
    most one move was played), [uct_genmove] returns the coord of the chosen
    node, runs no further playout, and keeps the per-game state with the
    chosen node promoted to the root of the tree. *)
Theorem genmove_plays_the_choice
        (sched : schedule) (fuel : nat) (e : engine) (b : board)
        (color : stone) (p p1 : process) (played_games : Z) (b1 : board)
        (ub : uct_board) (pol : uct_policy) (best : node_ptr)
        (chosen : tree_node) :
  genmove_search sched e b color p = (Returned (played_games, b1), p1) ->
  es b1 = Some ub ->
  policy (data e) = Some pol ->
  choose pol (root (ub_t ub)) b1 color = Some best ->
  node_at (root (ub_t ub)) best = Some chosen ->
  fl_ltb (tree_node_get_value (ub_t ub) 1 (value (node_u chosen)))
         (resign_ratio (data e)) = false
  \/ is_pass (coord chosen) = true ->
  moves b <= 1 \/ is_pass (m_coord (last_move b)) = false ->
  uct_genmove sched fuel e b color p =
    (Returned (coord chosen,
               set_es (Some (set_ub_t (tree_promote_node (ub_t ub) best) ub))
                      b1),
     put_stderr (winner_report (data e) b1 (ub_t ub) color played_games chosen)
                p1).
Proof.
  intros Hsearch Hes Hpol Hbest Hnode Hkeep Hnopass.
  destruct (genmove_search_board _ _ _ _ _ _ _ _ Hsearch) as (Hm & Hl & _).
  unfold uct_genmove. rewrite (bind_returned _ _ _ _ _ Hsearch).
  cbv beta iota. rewrite Hes, Hpol, Hbest.
  unfold genmove_decide.
  rewrite (announce_winner _ _ _ _ _ _ _ _ _ Hnode).
  fold (winner_report (data e) b1 (ub_t ub) color played_games chosen).
  assert (Hr : fl_ltb (tree_node_get_value (ub_t ub) 1 (value (node_u chosen)))
                      (resign_ratio (data e))
               && negb (is_pass (coord chosen)) = false).
  { destruct Hkeep as [-> | ->]; [reflexivity | apply andb_false_r]. }
  rewrite Hr, Hm, Hl.
  assert (Hp : (1 <? moves b) && is_pass (m_coord (last_move b)) = false).
  { destruct Hnopass as [Hle | ->]; [|apply andb_false_r].
    apply Z.ltb_ge in Hle. now rewrite Hle. }
  rewrite Hp. unfold bind, ret, deref. rewrite Hnode. reflexivity.
Qed.

Lemma genmove_decide_board (fuel : nat) (e : engine) (b : board)
      (color : stone) (ub : uct_board) (pg : Z) (best : node_ptr)
      p c b' p' :
  es b = Some ub ->
  genmove_decide fuel e b color ub pg best p = (Returned (c, b'), p') ->
  exists v, b' = set_es v b.
Proof.
  intros Hes. unfold genmove_decide.
  unfold bind at 1.
  destruct (when (UDEBUGL (data e) 0) _ p) as [[[]| | |] q0];
    try discriminate.
  unfold bind at 1.
  destruct (deref (ub_t ub) best q0) as [[chosen| | |] q1]; try discriminate.
  unfold bind at 1.
  destruct (when (UDEBUGL (data e) 1) _ q1) as [[[]| | |] q2];
    try discriminate.
  destruct (fl_ltb _ _ && negb _).
  - unfold uct_done_board_state. rewrite Hes. cbn.
    intros E. inversion E. eexists; reflexivity.
  - unfold bind at 1.
    match goal with
    | |- context [match ?c ?q with _ => _ end] =>
        destruct (c q) as [[ub'| | |] q']
    end; try discriminate.
    unfold bind at 1.
    destruct (deref (ub_t ub') best q') as [[chosen'| | |] q3];
      try discriminate.
    cbn. intros E. inversion E. eexists; reflexivity.
Qed.

Lemma genmove_search_shape (sched : schedule) (e : engine) (b : board)
      (color : stone) p pg b1 p1 :
  genmove_search sched e b color p = (Returned (pg, b1), p1) ->
  exists ub, b1 = set_es (Some ub) (set_superko_violation false b).
Proof.
  unfold genmove_search. unfold bind at 1.
  set (first := if superko_violation b then _ else _).
  assert (Hfirst : exists p0 b0, first p = (Returned b0, p0)
                                 /\ b0 = set_superko_violation false b).
  { subst first. destruct (superko_violation b) eqn:Hsk.
    - eexists; eexists; split; reflexivity.
    - eexists; eexists; split; [reflexivity|].
      destruct b; cbn in Hsk; subst; reflexivity. }
  destruct Hfirst as (p0 & b0 & Hf & ->). rewrite Hf.
  unfold bind at 1.
  destruct (prepare_move e (set_superko_violation false b) color p0)
    as [[b2| | |] p2] eqn:Hprep; try discriminate.
  destruct (prepare_move_shape _ _ _ _ _ _ Hprep) as (ub & ->).
  cbn [es set_es]. unfold bind at 1.
  destruct (uct_threaded_playouts sched (data e) _ color ub p2)
    as [[[g ub2]| | |] p3]; try discriminate.
  unfold bind at 1.
  destruct (UDEBUGL (data e) 2); cbn; intros E; inversion E; subst;
    eexists; reflexivity.
Qed.

(** X16. [uct_genmove] does not play its move: whatever it answers (a
    point, PASS or RESIGN), the board it leaves has the moves, the last
    move, the size and the stones of the board it was given; only the
    per-game state changes, and the superko flag, which is cleared. *)
Theorem genmove_leaves_the_position
        (sched : schedule) (fuel : nat) (e : engine) (b b' : board)
        (color : stone) (c : coord_t) (p p' : process) :
  uct_genmove sched fuel e b color p = (Returned (c, b'), p') ->
  moves b' = moves b /\ last_move b' = last_move b
  /\ board_size2 b' = board_size2 b /\ stones b' = stones b
  /\ superko_violation b' = false.
Proof.
  unfold uct_genmove. unfold bind at 1.
  destruct (genmove_search sched e b color p) as [[[pg b1]| | |] p1] eqn:Hs;
    try discriminate.
  destruct (genmove_search_shape _ _ _ _ _ _ _ _ Hs) as (ub & ->).
  cbn [es set_es].
  destruct (policy (data e)) as [pol|]; [|cbn; discriminate].
  destruct (choose pol (root (ub_t ub)) _ color) as [best|].
  - intros Hd. apply genmove_decide_board in Hd; [|reflexivity].
    destruct Hd as (v & ->). repeat split.
  - unfold uct_done_board_state. cbn. intros E. inversion E. repeat split.
Qed.

(** The loop of extra playouts, when it ends, has run the playouts one
    after the other up to the first that brings the ownership map to
    GJ_MINGAMES. *)
Lemma enough_playouts_least u b color :
  forall fuel ub p ub' p',
    enough_playouts fuel u b color ub p = (Returned ub', p') ->
    exists n, (n <= fuel)%nat
              /\ minimum_reached_after n u b color ub p ub' p'.
Proof.
  unfold minimum_reached_after.
  induction fuel as [|fuel IH]; intros ub p ub' p'; cbn [enough_playouts];
    destruct (om_playouts (ub_ownermap ub) <? GJ_MINGAMES) eqn:E;
    try discriminate.
  - intros R. inversion R; subst. apply Z.ltb_ge in E.
    exists 0%nat. repeat split; auto. intros i Hi. lia.
  - unfold bind at 1.
    destruct (uct_playout u (set_es (Some ub) b) color ub p)
      as [[[r ub1]| | |] p1] eqn:Hplay; try discriminate.
    intros R. destruct (IH _ _ _ _ R) as (n & Hn & Hrun & Hmin & Hless).
    apply Z.ltb_lt in E.
    exists (S n). split; [lia|]. split; [|split; [exact Hmin|]].
    + cbn [playouts_run]. unfold bind at 1. now rewrite Hplay.
    + intros [|i] Hi.
      * exists ub, p. split; [reflexivity | exact E].
      * destruct (Hless i) as (ub_i & p_i & Hi' & Hlt); [lia|].
        exists ub_i, p_i. split; [|exact Hlt].
        cbn [playouts_run]. unfold bind at 1. now rewrite Hplay.
  - intros R. inversion R; subst. apply Z.ltb_ge in E.
    exists 0%nat. split; [lia|]. repeat split; auto. intros i Hi. lia.
Qed.

(** X17. The extra playouts before a pass are no more than needed: whenever
    the loop ends, the state it leaves is the one after the first playout
    that brought the ownership map to GJ_MINGAMES = 500 playouts, every
    playout before having left it below; on a map that holds 500 already
    no playout is run at all and the process is left as it is. *)
Theorem extra_playouts_are_the_least (u : uct) (b : board) (color : stone)
        (fuel : nat) (ub ub' : uct_board) (p p' : process) :
  enough_playouts fuel u b color ub p = (Returned ub', p') ->
  (exists n, (n <= fuel)%nat
             /\ minimum_reached_after n u b color ub p ub' p')
  /\ (GJ_MINGAMES <= om_playouts (ub_ownermap ub) -> ub' = ub /\ p' = p).
Proof.
  intros Hrun. split; [exact (enough_playouts_least _ _ _ _ _ _ _ _ Hrun)|].
  intros Hmin. apply Z.ltb_ge in Hmin.
  destruct fuel; cbn [enough_playouts] in Hrun; rewrite Hmin in Hrun;
    inversion Hrun; auto.
Qed.

(** X20. With a walker that returns from every playout and records it in
    the ownership map as one game, the minimum of GJ_MINGAMES = 500
    playouts is reached after exactly as many playouts as are missing, 500
    less those recorded, and none when 500 or more are recorded; the map
    then holds 500 playouts, or what it held when that was more. *)
Theorem counted_playouts_reach_minimum u b color :
  (forall ub p, exists r ub' p',
      uct_playout u (set_es (Some ub) b) color ub p = (Returned (r, ub'), p')
      /\ om_playouts (ub_ownermap ub') = om_playouts (ub_ownermap ub) + 1) ->
  forall n ub p,
    Z.of_nat n = Z.max 0 (GJ_MINGAMES - om_playouts (ub_ownermap ub)) ->
    exists ub' p',
      minimum_reached_after n u b color ub p ub' p'
      /\ om_playouts (ub_ownermap ub')
         = Z.max GJ_MINGAMES (om_playouts (ub_ownermap ub)).
Proof.
  intros Hstep. unfold minimum_reached_after.
  induction n as [|n IH]; intros ub p Hn.
  - exists ub, p. repeat split; try reflexivity; try lia.
  - destruct (Hstep ub p) as (r & ub1 & p1 & Hplay & Hone).
    destruct (IH ub1 p1) as (ub' & p' & (Hrun & Hmin & Hless) & Hmax);
      [lia|].
    exists ub', p'. split; [split; [|split]|].
    + cbn [playouts_run]. unfold bind at 1. now rewrite Hplay.
    + exact Hmin.
    + intros [|i] Hi.
      * exists ub, p. split; [reflexivity | lia].
      * destruct (Hless i) as (ub_i & p_i & Hi' & Hlt); [lia|].
        exists ub_i, p_i. split; [|exact Hlt].
        cbn [playouts_run]. unfold bind at 1. now rewrite Hplay.
    + lia.
Qed.

(** *** The chat command and the print hook *)

Lemma skip_span_all_in (accept ws s : string) :
  all_in accept ws = true ->
  skip_span accept (ws ++ s) = skip_span accept s.
Proof.
  induction ws as [|c ws IH]; intros Hall; [reflexivity|].
  cbn in Hall. apply andb_prop in Hall. destruct Hall as [Hc Hall].
  cbn [append skip_span]. rewrite Hc. now apply IH.
Qed.

Lemma tolower_w (c : ascii) :
  tolower c = "w"%char -> mem c chat_blanks = false.
Proof.
  destruct c as [[] [] [] [] [] [] [] []]; vm_compute; congruence.
Qed.

Lemma winrate_any_case (w rest : string) :
  lower w = "winrate" ->
  skip_span chat_blanks (w ++ rest) = w ++ rest
  /\ strncasecmp (w ++ rest) "winrate" 7 = 0.
Proof.
  intros Hlow.
  destruct w as [|c1 [|c2 [|c3 [|c4 [|c5 [|c6 [|c7 w]]]]]]];
    try discriminate Hlow.
  cbn [lower] in Hlow. injection Hlow as E1 E2 E3 E4 E5 E6 E7 E8.
  split.
  - cbn [append skip_span]. now rewrite (tolower_w c1 E1).
  - cbn [append strncasecmp]. rewrite E1, E2, E3, E4, E5, E6, E7.
    cbn. now destruct (w ++ rest).
Qed.

(** X18. The chat command is recognised by its first seven letters only:
    any run of spaces, newlines and tabs before it, any letter case, and
    any text after it leave the reply what it is for the plain command
    winrate, with or without per-game state. *)
Theorem chat_winrate_prefix (e : engine) (b : board) (ws w rest : string) :
  all_in chat_blanks ws = true ->
  lower w = "winrate" ->
  uct_chat e b (ws ++ w ++ rest) = uct_chat e b "winrate".
Proof.
  intros Hws Hw. destruct (winrate_any_case w rest Hw) as [Hskip Hcmp].
  unfold uct_chat. rewrite (skip_span_all_in _ _ _ Hws), Hskip, Hcmp.
  reflexivity.
Qed.

(** X19. On a board with per-game state the print hook adds two characters
    to the stream for a point: a mark and a space.  The mark is : X or O
    when the point is judged dame, black or white at the threshold 0.8;
    when it is unclear there, the mark is : x or o by the judgement at the
    threshold 0.67, and a comma when that is unclear too. *)
Theorem printhook_writes_one_mark (b : board) (c : coord_t) (f : string)
        (ub : uct_board) :
  es b = Some ub ->
  uct_printhook_ownermap b c f =
    f ++ String (ownership_mark
                   (playout_ownermap_judge_point (ub_ownermap ub) c GJ_THRES)
                   (playout_ownermap_judge_point (ub_ownermap ub) c
                                                 (fl_lit (67 # 100))))
                " ".
Proof.
  intros Hes. unfold uct_printhook_ownermap. rewrite Hes.
  destruct (playout_ownermap_judge_point (ub_ownermap ub) c GJ_THRES);
    try reflexivity.
  destruct (playout_ownermap_judge_point (ub_ownermap ub) c (fl_lit (67 # 100)));
    reflexivity.
Qed.

End Properties.

(** ** The model at work on the sample collaborators *)

Section Runs.

Import Sample.
#[local] Existing Instances Sample.foreign Sample.collaborators.

(** Three workers: the flag is up after the first join. *)
Lemma three_workers_halt_after_one :
  exists d p',
    root_driver 1 in_order (configured "threads=3")
                (small_board (Some (midgame_state 0)) 5 (black_at 40))
                S_WHITE (midgame_state 0) quiet = (Returned d, p')
    /\ joined d = 1 /\ uct_halt p' = 1.
Proof.
  apply (root_driver_halt 1 in_order (configured "threads=3")
           (small_board (Some (midgame_state 0)) 5 (black_at 40))
           S_WHITE (midgame_state 0) quiet).
  - vm_compute. discriminate.
  - vm_compute. lia.
Defined.

(** With three workers the flag is up after one join, one join before half
    of them, rounded up, are joined. *)
Lemma halt_not_at_ceiling :
  (threads (configured "threads=3") = 3
   /\ (exists d p',
          root_driver 1 in_order (configured "threads=3")
                      (small_board (Some (midgame_state 0)) 5 (black_at 40))
                      S_WHITE (midgame_state 0) quiet
          = (Returned d, p')
          /\ joined d = 1 /\ uct_halt p' = 1)
   /\ 1 < (3 + 1) / 2)
  /\ ~ halt_at_ceiling.
Proof.
  split.
  - split; [reflexivity|]. split; [|reflexivity].
    eexists. eexists. repeat split; vm_compute; reflexivity.
  - intros Hc.
    destruct (Hc 1%nat in_order (configured "threads=3")
                 (small_board (Some (midgame_state 0)) 5 (black_at 40))
                 S_WHITE (midgame_state 0) quiet) as (d & p' & Hrun & Hiff).
    + vm_compute. discriminate.
    + vm_compute. lia.
    + vm_compute in Hrun. inversion Hrun; subst; clear Hrun.
      cbn in Hiff. destruct Hiff as [Hup _].
      specialize (Hup eq_refl). vm_compute in Hup. apply Hup. reflexivity.
Qed.

Lemma black_twice_is_fatal :
  uct_genmove in_order 0 (engine_for "games=3")
              (small_board (Some (midgame_state 0)) 5 (black_at 40))
              S_BLACK quiet
  = (Exited 1, put_stderr [fatal_line S_BLACK S_BLACK] quiet).
Proof.
  apply (genmove_non_alternating in_order 0 (engine_for "games=3")
           (small_board (Some (midgame_state 0)) 5 (black_at 40))
           S_BLACK (midgame_state 0) quiet).
  - reflexivity.
  - discriminate.
Defined.

(** After Black's move at 40, a second Black move at 30 is taken like any
    other: the node is promoted and the call returns. *)
Lemma notify_play_takes_black_twice :
  (root_color midgame_tree = S_BLACK
   /\ exists b',
       uct_notify_play (engine_for "games=3")
                       (small_board (Some (midgame_state 0)) 5 (black_at 40))
                       (black_at 30) quiet
       = (Returned b', quiet))
  /\ ~ non_alternating_is_fatal.
Proof.
  split.
  - split; [reflexivity|]. eexists. vm_compute. reflexivity.
  - intros [Hnotify _].
    eapply (Hnotify (engine_for "games=3")
              (small_board (Some (midgame_state 0)) 5 (black_at 40))
              (black_at 30) (midgame_state 0) quiet).
    + reflexivity.
    + discriminate.
    + vm_compute. reflexivity.
Qed.

(** Black, ahead after a pass of White, passes too: the search leaves 497
    playouts in the ownership map, three more are run, and the node
    promoted is the chosen one as those three left it, with 73 visits, its
    coord set to pass. *)
Lemma black_passes_after_white_pass :
  exists b' p',
    (forall fuel, (3 <= fuel)%nat ->
       uct_genmove in_order fuel (engine_for "games=497")
                   (small_board (Some (state_of endgame_tree 0)) 40 white_pass)
                   S_BLACK quiet
       = (Returned (pass, b'), p'))
    /\ option_map ub_t (es b')
       = Some {| root := leaf pass 73 (9 # 10)%Q;
                 root_color := S_BLACK;
                 extra_komi := 0%Q |}
    /\ option_map (fun ub => om_playouts (ub_ownermap ub)) (es b') = Some 500
    /\ p' = put_stderr [pass_line] quiet.
Proof.
  eexists. eexists. split.
  - intros fuel Hfuel.
    edestruct (genmove_passes_when_safe
                 in_order 3 (engine_for "games=497")
                 (small_board (Some (state_of endgame_tree 0)) 40 white_pass)
                 S_BLACK quiet) as (_ & Hgen);
      [ vm_compute; reflexivity
      | reflexivity
      | reflexivity
      | reflexivity
      | reflexivity
      | reflexivity
      | reflexivity
      | reflexivity
      | split; [vm_compute; reflexivity|];
        split; [vm_compute; discriminate|];
        intros [|[|[|i]]] Hi; [| | | lia];
        eexists; eexists; (split; [vm_compute; reflexivity|]);
        vm_compute; reflexivity
      | vm_compute; reflexivity
      | vm_compute; reflexivity
      | exact Hfuel
      | exact Hgen ].
  - repeat split; vm_compute; reflexivity.
Defined.

(** White, lost, resigns. *)
Lemma white_resigns_when_lost :
  exists b' p',
    uct_genmove in_order 0 (engine_for "games=3")
                (small_board (Some (state_of lost_tree 0)) 5 (black_at 40))
                S_WHITE quiet
    = (Returned (resign, b'), p')
    /\ es b' = None.
Proof.
  eexists. eexists.
  eapply (genmove_resigns in_order 0 (Some "games=3")
            (engine_for "games=3")
            (small_board (Some (state_of lost_tree 0)) 5 (black_at 40))
            S_WHITE quiet quiet quiet).
  - vm_compute. reflexivity.
  - vm_compute. reflexivity.
  - reflexivity.
  - reflexivity.
  - reflexivity.
  - reflexivity.
  - reflexivity.
  - reflexivity.
Defined.

(** Too few playouts recorded: no pass, whatever the board. *)
Lemma no_pass_on_499_playouts :
  uct_pass_is_safe (configured "games=3")
                   (small_board (Some (state_of endgame_tree 499)) 40 white_pass)
                   S_BLACK quiet = (Returned false, quiet).
Proof.
  apply (proj1 (uct_pass_is_safe_needs_games
                  (configured "games=3")
                  (small_board (Some (state_of endgame_tree 499)) 40 white_pass)
                  S_BLACK (state_of endgame_tree 499) quiet eq_refl)).
  vm_compute. reflexivity.
Defined.

Lemma no_state_after_resign :
  (forall c f, uct_printhook_ownermap (small_board None 6 black_resigns) c f = f)
  /\ uct_chat (engine_for "games=3") (small_board None 6 black_resigns) "winrate"
     = Some "no game context (yet?)"
  /\ (forall cmd, Libc.strncasecmp (Libc.skip_span chat_blanks cmd) "winrate" 7 = 0 ->
                  uct_chat (engine_for "games=3")
                           (small_board None 6 black_resigns) cmd
                  = Some "no game context (yet?)").
Proof.
  apply (no_state_no_report (engine_for "games=3")
                            (small_board None 6 black_resigns)).
  reflexivity.
Defined.

(** With debug=0 a failed promotion drops the state without a word. *)
Lemma silent_failed_promotion :
  (tree_promote_at midgame_tree
                   (small_board (Some (midgame_state 0)) 5 (black_at 40))
                   (at_point 31) = None
   /\ uct_notify_play (engine_for "debug=0")
                      (small_board (Some (midgame_state 0)) 5 (black_at 40))
                      (white_at 31) quiet
      = (Returned (small_board None 5 (black_at 40)), quiet))
  /\ ~ failed_promotion_warns.
Proof.
  split.
  - split; vm_compute; reflexivity.
  - intros Hc.
    destruct (Hc (engine_for "debug=0")
                 (small_board (Some (midgame_state 0)) 5 (black_at 40))
                 (white_at 31) (midgame_state 0) quiet) as (b' & Hrun & _).
    + reflexivity.
    + reflexivity.
    + reflexivity.
    + vm_compute in Hrun. discriminate Hrun.
Qed.

Lemma white_reply_promoted :
  exists b1 ub1 p1,
    ensure_state (engine_for "games=3")
                 (small_board (Some (midgame_state 0)) 5 (black_at 40))
                 (white_at 30) quiet = (Returned b1, p1)
    /\ es b1 = Some ub1
    /\ uct_notify_play (engine_for "games=3")
                       (small_board (Some (midgame_state 0)) 5 (black_at 40))
                       (white_at 30) quiet
       = (Returned (set_es (Some (set_ub_t (Sample.reroot midgame_tree
                                              (leaf (at_point 30) 60 (6 # 10)%Q))
                                           ub1)) b1), p1).
Proof.
  destruct (notify_play_outcome
              (engine_for "games=3")
              (small_board (Some (midgame_state 0)) 5 (black_at 40))
              (white_at 30) quiet)
    as (b1 & ub1 & p1 & Hens & Hes & Hsame & _ & _ & Hkeep).
  - left. discriminate.
  - exists b1, ub1, p1. split; [exact Hens|]. split; [exact Hes|].
    destruct Hsame as [-> ->]; [discriminate|].
    apply Hkeep; [reflexivity|].
    cbn in Hes. inversion Hes; subst. reflexivity.
Defined.

(** A key that needs a value, given without one. *)
Lemma valueless_threads_rejected :
  uct_state_init (Some "games=100,threads") quiet
  = (Exited 1,
     put_stderr ["uct: Invalid engine argument threads or missing value"
                   ++ Libc.nl] quiet).
Proof.
  destruct (uct_state_init_rejects "games=100,threads" quiet)
    as (o & Hfirst & _ & _ & Hexit).
  - vm_compute. reflexivity.
  - vm_compute in Hfirst. injection Hfirst as Ho. subst o. exact Hexit.
Defined.



Lemma random_policy_alone_rejected :
  uct_state_init (Some "random_policy=ucb1") quiet
  = (Exited 1, put_stderr [only_one_line] quiet).
Proof.
  apply (proj1 (random_policy_needs_chance "random_policy=ucb1" quiet)).
  vm_compute. reflexivity.
Defined.

(** More properties at work. *)

(** A map that held 321 playouts holds none after [prepare_move]. *)
Lemma kept_state_gets_a_clear_map :
  exists b1 p1 ub1,
    prepare_move (engine_for "games=3")
                 (small_board (Some (midgame_state 321)) 5 (black_at 40))
                 S_WHITE quiet = (Returned b1, p1)
    /\ es b1 = Some ub1
    /\ om_playouts (ub_ownermap ub1) = 0
    /\ om_map (ub_ownermap ub1) = repeat (0, 0, 0) 9
    /\ moves b1 = 5.
Proof.
  assert (Hrun : exists b1 p1,
             prepare_move (engine_for "games=3")
                          (small_board (Some (midgame_state 321)) 5 (black_at 40))
                          S_WHITE quiet = (Returned b1, p1))
    by (eexists; eexists; vm_compute; reflexivity).
  destruct Hrun as (b1 & p1 & Hrun).
  destruct (prepare_move_clears_ownermap _ _ _ _ _ _ Hrun)
    as ((ub1 & Hes & Hn & Hmap) & Hm & _).
  exists b1, p1, ub1. repeat split; assumption.
Defined.

(** With the opening book on, White cannot make the first move of a game. *)
Lemma white_cannot_open_the_book :
  exists p0,
    prepare_move (engine_for "force_seed=7") (small_board None 0 black_pass)
                 S_WHITE quiet
    = (Aborted "color == S_BLACK", failed "color == S_BLACK" p0)
    /\ uct_halt p0 = 0
    /\ rng p0 = 7.
Proof.
  assert (Hbook : no_book (data (engine_for "force_seed=7")) = false)
    by (vm_compute; reflexivity).
  assert (Hwhite : S_WHITE <> S_BLACK) by discriminate.
  pose proof (proj2 (prepare_move_first_move
                       (engine_for "force_seed=7")
                       (small_board None 0 black_pass)
                       S_WHITE quiet eq_refl) Hbook eq_refl Hwhite) as Habort.
  vm_compute in Habort. vm_compute. exact Habort.
Defined.

(** A forced seed is set and told when the state is built. *)
Lemma forced_seed_is_told :
  exists b1 p1,
    prepare_move (engine_for "force_seed=7") (small_board None 3 (black_at 40))
                 S_WHITE quiet = (Returned b1, p1)
    /\ rng p1 = 7
    /\ stderr p1 = ["Fresh board with random seed 7" ++ Libc.nl].
Proof.
  assert (Hrun : exists b1 p1,
             prepare_move (engine_for "force_seed=7")
                          (small_board None 3 (black_at 40))
                          S_WHITE quiet = (Returned b1, p1))
    by (eexists; eexists; vm_compute; reflexivity).
  destruct Hrun as (b1 & p1 & Hrun).
  destruct (prepare_move_seeds_once _ _ _ _ _ _ Hrun) as (_ & Hfresh).
  destruct (Hfresh eq_refl) as (Hr & Hs).
  exists b1, p1. split; [exact Hrun|]. split; [exact Hr|].
  rewrite Hs, Hr. reflexivity.
Defined.

(** A dynamic komi for both colours, on the fifth move of ten. *)
Lemma komi_of_the_fifth_move :
  exists b1 p1 ub1,
    prepare_move (engine_for "dynkomi=10,dynkomi_mask=3")
                 (small_board (Some (midgame_state 0)) 5 (black_at 40))
                 S_WHITE quiet = (Returned b1, p1)
    /\ es b1 = Some ub1
    /\ root (ub_t ub1) = root midgame_tree
    /\ extra_komi (ub_t ub1) = 5%Q.
Proof.
  assert (Hrun : exists b1 p1,
             prepare_move (engine_for "dynkomi=10,dynkomi_mask=3")
                          (small_board (Some (midgame_state 0)) 5 (black_at 40))
                          S_WHITE quiet = (Returned b1, p1))
    by (eexists; eexists; vm_compute; reflexivity).
  destruct Hrun as (b1 & p1 & Hrun).
  destruct (prepare_move_dynkomi _ _ _ _ _ _ Hrun)
    as (ub1 & Hes & Hroot & _ & _ & Hkomi).
  exists b1, p1, ub1. split; [exact Hrun|]. split; [exact Hes|].
  split; [exact Hroot|].
  exact (Hkomi eq_refl (midgame_state 0) eq_refl).
Defined.

(** A state made for a board and dropped again leaves the board. *)
Lemma state_made_and_dropped :
  exists b1 p1,
    prepare_move (engine_for "games=3") (small_board None 3 (black_at 40))
                 S_WHITE quiet = (Returned b1, p1)
    /\ uct_done_board_state (engine_for "games=3") b1 p1
       = (Returned (small_board None 3 (black_at 40)), p1).
Proof.
  assert (Hrun : exists b1 p1,
             prepare_move (engine_for "games=3")
                          (small_board None 3 (black_at 40))
                          S_WHITE quiet = (Returned b1, p1))
    by (eexists; eexists; vm_compute; reflexivity).
  destruct Hrun as (b1 & p1 & Hrun).
  exists b1, p1. split; [exact Hrun|].
  exact (proj1 (state_created_then_destroyed
                  (engine_for "games=3") (small_board None 3 (black_at 40))
                  S_WHITE quiet p1 b1 eq_refl Hrun)).
Defined.

(** Of the two groups of the final board, the one on the points 1 and 2 is
    dead. *)
Lemma one_dead_group :
  dead_group_list (configured "games=3") (final_board (Some counted_state))
                  [pass] quiet
  = (Returned [pass; at_point 1], quiet).
Proof.
  exact (dead_group_list_queue (configured "games=3")
           (final_board (Some counted_state)) counted_state [pass] quiet
           eq_refl).
Defined.

Lemma black_may_pass :
  uct_pass_is_safe (configured "games=3") (final_board (Some counted_state))
                   S_BLACK quiet
  = (Returned true, quiet).
Proof.
  refine (uct_pass_is_safe_verdict (configured "games=3")
            (final_board (Some counted_state)) S_BLACK counted_state quiet
            eq_refl _).
  vm_compute. discriminate.
Defined.

(** The dead groups of a board with state, and of one without: there the
    state is mocked up, which the log shows, and dropped again. *)
Lemma dead_groups_for_the_score :
  (exists mq' p',
      uct_dead_group_list (engine_for "games=3")
                          (final_board (Some counted_state)) [] quiet
      = (Returned (mq', final_board (Some counted_state)), p')
      /\ mq' = [at_point 1] /\ p' = quiet)
  /\ (exists mq' b' p',
         uct_dead_group_list (engine_for "games=3") (final_board None) []
                             quiet
         = (Returned (mq', b'), p')
         /\ b' = final_board None).
Proof.
  split.
  - assert (Hrun : exists mq' b' p',
               uct_dead_group_list (engine_for "games=3")
                                   (final_board (Some counted_state)) [] quiet
               = (Returned (mq', b'), p'))
      by (eexists; eexists; eexists; vm_compute; reflexivity).
    destruct Hrun as (mq' & b' & p' & Hrun).
    destruct (uct_dead_group_list_restores _ _ _ _ _ _ _ Hrun)
      as (Hb & _ & Hstate & _).
    destruct (Hstate eq_refl counted_state eq_refl) as (Hmq & Hp).
    subst b'. exists mq', p'. split; [exact Hrun|].
    split; [exact Hmq | exact Hp].
  - assert (Hrun : exists mq' b' p',
               uct_dead_group_list (engine_for "games=3") (final_board None)
                                   [] quiet
               = (Returned (mq', b'), p'))
      by (eexists; eexists; eexists; vm_compute; reflexivity).
    destruct Hrun as (mq' & b' & p' & Hrun).
    exists mq', b', p'. split; [exact Hrun|].
    exact (proj1 (uct_dead_group_list_restores _ _ _ _ _ _ _ Hrun)).
Defined.


(** An engine with a light playout policy at debug level 3. *)
Lemma light_engine_is_complete :
  exists u,
    uct_state_init (Some "debug=3,playout=light") quiet = (Returned u, quiet)
    /\ has (policy u) = true /\ has (prior u) = true
    /\ resign_ratio u = (2 # 10)%Q
    /\ (forall pp, playout u = Some pp -> pp_debug_level pp = 3).
Proof.
  assert (Hrun : exists u p',
             uct_state_init (Some "debug=3,playout=light") quiet
             = (Returned u, p'))
    by (eexists; eexists; vm_compute; reflexivity).
  destruct Hrun as (u & p' & Hrun).
  destruct (uct_state_init_engine _ _ _ _ Hrun)
    as (Hp & (Hpol & _ & Hprior) & (Hratio & _) & Hdebug & _).
  subst p'. exists u. split; [exact Hrun|].
  split; [exact Hpol|]. split; [exact Hprior|]. split; [exact Hratio|].
  intros pp Hpp. rewrite (Hdebug pp Hpp).
  vm_compute in Hrun. injection Hrun as Hu. rewrite <- Hu. reflexivity.
Defined.

(** Root parallelisation asked for without threads: one thread searches. *)
Lemma no_threads_no_workers :
  uct_threaded_playouts in_order (configured "thread_model=root")
                        (small_board (Some (midgame_state 0)) 5 (black_at 40))
                        S_WHITE (midgame_state 0) quiet
  = uct_playouts (configured "thread_model=root")
                 (small_board (Some (midgame_state 0)) 5 (black_at 40))
                 S_WHITE (midgame_state 0) quiet.
Proof.
  assert (Hinit : uct_state_init (Some "thread_model=root") quiet
                  = (Returned (configured "thread_model=root"), quiet))
    by (vm_compute; reflexivity).
  apply (proj1 (search_thread_count
                  (Some "thread_model=root") (configured "thread_model=root")
                  quiet quiet in_order
                  (small_board (Some (midgame_state 0)) 5 (black_at 40))
                  S_WHITE (midgame_state 0) quiet Hinit)).
  reflexivity.
Defined.

(** A tree without a move to offer: the engine passes and forgets the
    game. *)
Lemma empty_tree_passes :
  exists b',
    uct_genmove in_order 0 (engine_for "debug=0")
                (small_board None 3 (black_at 40)) S_WHITE quiet
    = (Returned (pass, b'), quiet)
    /\ b' = small_board None 3 (black_at 40).
Proof.
  eexists. split.
  - eapply (genmove_without_choice
              in_order 0 (engine_for "debug=0")
              (small_board None 3 (black_at 40)) S_WHITE quiet quiet);
      [ vm_compute; reflexivity | reflexivity | reflexivity | reflexivity ].
  - reflexivity.
Defined.

(** White answers the move at 40 with the most visited reply. *)
Lemma white_plays_the_most_visited :
  exists c b' p',
    uct_genmove in_order 0 (engine_for "games=3")
                (small_board (Some (midgame_state 0)) 5 (black_at 40))
                S_WHITE quiet
    = (Returned (c, b'), p')
    /\ c = at_point 30
    /\ option_map (fun ub => root (ub_t ub)) (es b')
       = Some (leaf (at_point 30) 60 (6 # 10)%Q).
Proof.
  eexists. eexists. eexists. split.
  - eapply (genmove_plays_the_choice
              in_order 0 (engine_for "games=3")
              (small_board (Some (midgame_state 0)) 5 (black_at 40))
              S_WHITE quiet);
      [ vm_compute; reflexivity | reflexivity | reflexivity | reflexivity
      | reflexivity | left; reflexivity | right; reflexivity ].
  - split; reflexivity.
Defined.

(** The board after a resignation is the board before it, the state
    apart. *)
Lemma resigning_moves_no_stone :
  exists b' p',
    uct_genmove in_order 0 (engine_for "games=3")
                (small_board (Some (state_of lost_tree 0)) 5 (black_at 40))
                S_WHITE quiet
    = (Returned (resign, b'), p')
    /\ moves b' = 5 /\ last_move b' = black_at 40.
Proof.
  assert (Hrun : exists b' p',
             uct_genmove in_order 0 (engine_for "games=3")
                         (small_board (Some (state_of lost_tree 0)) 5
                                      (black_at 40))
                         S_WHITE quiet
             = (Returned (resign, b'), p'))
    by (eexists; eexists; vm_compute; reflexivity).
  destruct Hrun as (b' & p' & Hrun).
  destruct (genmove_leaves_the_position _ _ _ _ _ _ _ _ _ Hrun)
    as (Hm & Hl & _).
  exists b', p'. split; [exact Hrun|]. split; [exact Hm | exact Hl].
Defined.

(** From 497 playouts the loop runs three, whatever more it may run. *)
Lemma three_playouts_missing :
  exists ub' p' n,
    enough_playouts 10 (configured "games=3")
                    (small_board (Some (state_of endgame_tree 497)) 40 white_pass)
                    S_BLACK (state_of endgame_tree 497) quiet
    = (Returned ub', p')
    /\ (n <= 10)%nat
    /\ minimum_reached_after n (configured "games=3")
         (small_board (Some (state_of endgame_tree 497)) 40 white_pass)
         S_BLACK (state_of endgame_tree 497) quiet ub' p'
    /\ om_playouts (ub_ownermap ub') = 500.
Proof.
  assert (Hrun : exists ub' p',
             enough_playouts 10 (configured "games=3")
               (small_board (Some (state_of endgame_tree 497)) 40 white_pass)
               S_BLACK (state_of endgame_tree 497) quiet
             = (Returned ub', p'))
    by (eexists; eexists; vm_compute; reflexivity).
  destruct Hrun as (ub' & p' & Hrun).
  destruct (extra_playouts_are_the_least _ _ _ _ _ _ _ _ Hrun)
    as ((n & Hn & Hmin) & _).
  exists ub', p', n. split; [exact Hrun|]. split; [exact Hn|].
  split; [exact Hmin|].
  vm_compute in Hrun. injection Hrun as Hub _. rewrite <- Hub. reflexivity.
Defined.

(** The sample walker counts its playouts: from 497 three are missing. *)
Lemma sample_walker_needs_three :
  exists ub' p',
    minimum_reached_after 3 (configured "games=3")
      (small_board (Some (state_of endgame_tree 497)) 40 white_pass)
      S_BLACK (state_of endgame_tree 497) quiet ub' p'
    /\ om_playouts (ub_ownermap ub') = 500.
Proof.
  destruct (counted_playouts_reach_minimum
              (configured "games=3")
              (small_board (Some (state_of endgame_tree 497)) 40 white_pass)
              S_BLACK) with (n := 3%nat) (ub := state_of endgame_tree 497)
                            (p := quiet)
    as (ub' & p' & Hmin & Hcount).
  - intros ub p. eexists. eexists. eexists. split; reflexivity.
  - reflexivity.
  - exists ub', p'. split; [exact Hmin | exact Hcount].
Defined.

Lemma winrate_is_asked_in_many_ways :
  uct_chat (engine_for "threads=2")
           (small_board (Some (midgame_state 0)) 5 (black_at 40))
           ("  " ++ "WinRate" ++ ", please")
  = uct_chat (engine_for "threads=2")
             (small_board (Some (midgame_state 0)) 5 (black_at 40))
             "winrate".
Proof.
  apply (chat_winrate_prefix
           (engine_for "threads=2")
           (small_board (Some (midgame_state 0)) 5 (black_at 40))
           "  " "WinRate" ", please"); reflexivity.
Defined.

(** The point 4 is Black's for sure, the point 5 likely so. *)
Lemma marks_of_two_points :
  uct_printhook_ownermap (final_board (Some counted_state)) (at_point 5)
    (uct_printhook_ownermap (final_board (Some counted_state)) (at_point 4)
                            EmptyString)
  = "X x ".
Proof.
  rewrite (printhook_writes_one_mark
             (final_board (Some counted_state)) (at_point 4) EmptyString
             counted_state eq_refl).
  rewrite (printhook_writes_one_mark
             (final_board (Some counted_state)) (at_point 5) _
             counted_state eq_refl).
  vm_compute. reflexivity.
Defined.

(** More runs of the model. *)

Example atoi_signed : Libc.atoi " -42x" = -42.
Proof. reflexivity. Qed.

Example atoi_keeps_an_int :
  Libc.atoi "2147483647" = 2147483647
  /\ Libc.atoi "2147483648" = -2147483648
  /\ Libc.atoi "4294967296" = 0
  /\ Libc.atoi "4294967297" = 1
  /\ Libc.atoi "99999999999999999999" = -1.
Proof. repeat split; reflexivity. Qed.

Example fmt_d_negative : Libc.fmt_d (-17) = "-17".
Proof. reflexivity. Qed.

Example strcasecmp_ignores_case : Libc.strcasecmp "GaMeS" "games" = 0.
Proof. reflexivity. Qed.

Example cut_at_equals : Libc.cut "=" "games=10" = ("games", Some "10").
Proof. reflexivity. Qed.

Example options_of_a_string :
  config_options "games=10,,no_book,banner=hi,there"
  = [("games", Some "10"); (EmptyString, None); ("no_book", None);
     ("banner", Some "hi")].
Proof. vm_compute. reflexivity. Qed.

Example banner_runs_to_the_end :
  banner (configured "threads=2,banner=hi,there") = Some "hi,there".
Proof. vm_compute. reflexivity. Qed.

(** The policy and its chance together, a chance of 0 with and without the
    policy, and a chance that is 0 as an [int]. *)
Example fallback_policy_settings :
  map (fun arg => fst (uct_state_init (Some arg) quiet))
      [ "random_policy=ucb1,random_policy_chance=5";
        "random_policy_chance=5";
        "random_policy=ucb1,random_policy_chance=0";
        "random_policy_chance=0";
        "random_policy_chance=4294967296";
        "random_policy_chance=5,random_policy_chance=0" ]
  = [ Returned (configured "random_policy=ucb1,random_policy_chance=5");
      Exited 1;
      Exited 1;
      Returned (configured "random_policy_chance=0");
      Returned (configured "random_policy_chance=0");
      Returned (configured "random_policy_chance=0") ].
Proof. vm_compute. reflexivity. Qed.

Example diagnostics_of_the_parser :
  map (fun arg => stderr (snd (uct_state_init (Some arg) quiet)))
      [ "policy=ucb2:x"; "playout=heavy"; "thread_model=tree";
        "games"; "colour=red"; "games=10,,no_book" ]
  = [ ["UCT: Invalid tree policy ucb2" ++ Libc.nl];
      ["UCT: Invalid playout policy heavy" ++ Libc.nl];
      ["UCT: Invalid thread model tree" ++ Libc.nl];
      ["uct: Invalid engine argument games or missing value" ++ Libc.nl];
      ["uct: Invalid engine argument colour or missing value" ++ Libc.nl];
      ["uct: Invalid engine argument  or missing value" ++ Libc.nl] ].
Proof. vm_compute. reflexivity. Qed.

Example threads_zero_is_single_threaded :
  thread_model (configured "games=100") = TM_NONE
  /\ thread_model (configured "threads=4") = TM_ROOT.
Proof. split; vm_compute; reflexivity. Qed.

Example handicap_winrate :
  uct_chat (engine_for "threads=2")
           (small_board (Some (state_of handicap_tree 0)) 5 (black_at 40))
           "  WINRATE?"
  = Some ("In 100*2 playouts, black #40 can win with 50.00% probability"
            ++ ", while self-imposing extra komi 7.5.").
Proof. vm_compute. reflexivity. Qed.

Example resign_drops_the_state :
  fst (uct_notify_play (engine_for "games=3")
                       (small_board (Some (midgame_state 0)) 5 (black_at 40))
                       black_resigns quiet)
  = Returned (small_board None 5 (black_at 40)).
Proof. vm_compute. reflexivity. Qed.

(** The flag after 0, 1, 2, ... joins, for three and for four workers. *)
Definition halt_after (arg : string) (rounds : nat) : Z :=
  uct_halt (snd (root_driver rounds in_order (configured arg)
                             (small_board (Some (midgame_state 0)) 5 (black_at 40))
                             S_WHITE (midgame_state 0) quiet)).

Example halt_flag_by_round :
  map (halt_after "threads=3") [0; 1; 2; 3]%nat = [0; 1; 1; 1]
  /\ map (halt_after "threads=4") [0; 1; 2; 3; 4]%nat = [0; 0; 1; 1; 1]
  /\ map (halt_after "threads=1") [0; 1]%nat = [0; 1].
Proof. repeat split; vm_compute; reflexivity. Qed.

Example root_search_joins_everyone :
  fst (uct_genmove in_order 0 (engine_for "games=3,threads=3")
                   (small_board (Some (midgame_state 0)) 5 (black_at 40))
                   S_WHITE quiet)
  = Returned (at_point 30,
              small_board
                (Some (state_of (reroot (merge (merge (merge midgame_tree
                                                             (done_t (in_order [] 0%nat)))
                                                      (done_t (in_order [] 1%nat)))
                                               (done_t (in_order [] 2%nat)))
                                        (leaf (at_point 30) 60 (6 # 10)%Q))
                                10))
                5 (black_at 40)).
Proof. vm_compute. reflexivity. Qed.

End Runs.
